(** * A shallow embedding of the test project (models.py, service.py, utils.py)

    The program is Python, so it is embedded over a small fragment of
    Python's dynamic semantics: tagged values, exceptions as results,
    instances with an attribute dictionary living in a heap, and attribute
    lookup along the method resolution order of the class.

    Conventions of the model
    - a Python [str] is a [string] (a sequence of characters; the characters
      are those of [ascii]);
    - a Python [int] is a [Z] (Python integers are unbounded);
    - a call that raises returns [Raise e]; a call that returns normally
      returns [Ok v];
    - an omitted argument that has a default is [None] at the call site. *)

From Stdlib Require Import ZArith String Ascii Lia.
From Stdlib Require DecimalString HexadecimalString.
From stdpp Require Import base option list gmap strings.

Local Open Scope Z_scope.

(** ** The names that models.py declares

    Two classes ([object] is their root) and four functions. *)

Inductive class_name : Type :=
  | ObjectClass
  | UserClass
  | AdminClass.

Inductive fun_id : Type :=
  | User_init
  | User_greet
  | Admin_init
  | Admin_promote.

Global Instance class_name_eq_dec : EqDecision class_name.
Proof. solve_decision. Defined.
Global Instance fun_id_eq_dec : EqDecision fun_id.
Proof. solve_decision. Defined.

(** ** Python values and outcomes *)

Module Py.

(** A location of the heap; it stands for the identity [id(obj)] of an
    instance. *)
Abbreviation loc := nat (only parsing).

(** The values of the model: [None], [bool], [int], [str], a reference to an
    instance of one of the classes above, and a method bound to such an
    instance. *)
Inductive value : Type :=
  | VNone
  | VBool (b : bool)
  | VInt (n : Z)
  | VStr (s : string)
  | VRef (l : loc)
  | VMethod (f : fun_id) (self : loc).

Global Instance value_eq_dec : EqDecision value.
Proof. solve_decision. Defined.

Inductive exn : Type :=
  | TypeError
  | ValueError
  | AttributeError (attr : string)
  | SystemError.

Inductive result (A : Type) : Type :=
  | Ok (a : A)
  | Raise (e : exn).
Global Arguments Ok {A} a.
Global Arguments Raise {A} e.

Global Instance result_ret : MRet result := fun A a => Ok a.
Global Instance result_bind : MBind result := fun A B f r =>
  match r with
  | Ok a => f a
  | Raise e => Raise e
  end.

(** *** Strings *)

(** [len(s)], [s[:n]] for [0 <= n], and the two substring tests behind
    [sub in s]. *)
Definition len (s : string) : Z := Z.of_nat (String.length s).

Fixpoint str_take (n : nat) (s : string) : string :=
  match n, s with
  | S n', String c s' => String c (str_take n' s')
  | _, _ => EmptyString
  end.

Fixpoint starts_with (s sub : string) {struct sub} : bool :=
  match sub, s with
  | EmptyString, _ => true
  | String a sub', String b s' => bool_decide (a = b) && starts_with s' sub'
  | String _ _, EmptyString => false
  end.

Fixpoint str_contains (s sub : string) : bool :=
  starts_with s sub ||
  match s with
  | EmptyString => false
  | String _ s' => str_contains s' sub
  end.

(** [str(n)] for an integer: its decimal form, with a minus sign when it is
    negative. CPython refuses the conversion with [ValueError] when the
    integer has more decimal digits than the limit of
    [sys.get_int_max_str_digits()], 4300 unless it is reconfigured. *)
Definition int_max_str_digits : nat := 4300.

Definition int_digits (n : Z) : nat :=
  String.length (DecimalString.NilZero.string_of_int (Z.to_int (Z.abs n))).

Definition int_str (n : Z) : result string :=
  if (int_max_str_digits <? int_digits n)%nat
  then Raise ValueError
  else Ok (DecimalString.NilZero.string_of_int (Z.to_int n)).

(** *** Built-in operations on values *)

(** Truth value of an object: [None], [False], [0] and the empty string are
    false; an instance of a class without [__bool__] and [__len__] is true,
    and so is a bound method. *)
Definition truthy (v : value) : bool :=
  match v with
  | VNone => false
  | VBool b => b
  | VInt n => negb (n =? 0)
  | VStr s => negb (bool_decide (s = EmptyString))
  | VRef _ => true
  | VMethod _ _ => true
  end.

(** [bool] is a subclass of [int]: where an integer is expected, [True] is 1
    and [False] is 0. *)
Definition as_int (v : value) : option Z :=
  match v with
  | VInt n => Some n
  | VBool b => Some (Z.b2z b)
  | _ => None
  end.

(** [a and b]: [b] is evaluated only when [a] is true, and the value of the
    expression is the value of the operand evaluated last. *)
Definition py_and (a b : result value) : result value :=
  x ← a; if truthy x then b else Ok x.

(** [x in container]. Of the values of the model only [str] is a container,
    and it accepts only a [str] on the left. *)
Definition py_in (x container : value) : result value :=
  match container, x with
  | VStr s, VStr sub => Ok (VBool (str_contains s sub))
  | _, _ => Raise TypeError
  end.

(** [len(v)]. *)
Definition py_len (v : value) : result value :=
  match v with
  | VStr s => Ok (VInt (len s))
  | _ => Raise TypeError
  end.

(** [a > b]: integers by value, strings lexicographically, anything else is
    unorderable. *)
Definition py_gt (a b : value) : result value :=
  match as_int a, as_int b with
  | Some x, Some y => Ok (VBool (y <? x))
  | _, _ =>
      match a, b with
      | VStr s, VStr t => Ok (VBool (String.ltb t s))
      | _, _ => Raise TypeError
      end
  end.

(** The stop index of a slice [[:stop]] of a sequence of length [n], as
    Python adjusts it: a negative [stop] counts from the end, and the result
    is clipped to [0 .. n]. *)
Definition slice_stop (n stop : Z) : Z :=
  if stop <? 0 then Z.max (stop + n) 0 else Z.min stop n.

(** [v[:stop]]. Only [str] is subscriptable; [stop] is an integer or
    [None] (no bound). *)
Definition py_slice_to (v stop : value) : result value :=
  match v with
  | VStr s =>
      match stop with
      | VNone => Ok (VStr s)
      | _ =>
          match as_int stop with
          | Some k => Ok (VStr (str_take (Z.to_nat (slice_stop (len s) k)) s))
          | None => Raise TypeError
          end
      end
  | _ => Raise TypeError
  end.

(** [a + b]: integer addition or string concatenation. *)
Definition py_add (a b : value) : result value :=
  match as_int a, as_int b with
  | Some x, Some y => Ok (VInt (x + y))
  | _, _ =>
      match a, b with
      | VStr s, VStr t => Ok (VStr (s +:+ t))
      | _, _ => Raise TypeError
      end
  end.

End Py.
Import Py.

(** ** The class table of models.py

    [class User:] declares [__init__] and [greet]; [class Admin(User):]
    declares the class variable [role = "admin"], [__init__] and [promote].
    The namespace of a class maps a name to a plain value or to a function. *)

Inductive class_attr : Type :=
  | CVal (v : value)
  | CFun (f : fun_id).

(** Of the attributes of [object] the program reaches only [__format__]
    (inside the f-string of [greet]), which is part of [py_format] below; its
    namespace is left empty. *)
Definition class_dict (c : class_name) : gmap string class_attr :=
  match c with
  | ObjectClass => ∅
  | UserClass =>
      {[ "__init__" := CFun User_init;
         "greet" := CFun User_greet ]}
  | AdminClass =>
      {[ "role" := CVal (VStr "admin");
         "__init__" := CFun Admin_init;
         "promote" := CFun Admin_promote ]}
  end.

(** The method resolution order: the class, then its bases. *)
Definition mro (c : class_name) : list class_name :=
  match c with
  | ObjectClass => [ObjectClass]
  | UserClass => [UserClass; ObjectClass]
  | AdminClass => [AdminClass; UserClass; ObjectClass]
  end.

Definition class_qualname (c : class_name) : string :=
  match c with
  | ObjectClass => "object"
  | UserClass => "User"
  | AdminClass => "Admin"
  end.

Definition fun_qualname (f : fun_id) : string :=
  match f with
  | User_init => "User.__init__"
  | User_greet => "User.greet"
  | Admin_init => "Admin.__init__"
  | Admin_promote => "Admin.promote"
  end.

(** The first namespace along [cs] that defines [name]. *)
Fixpoint mro_lookup (cs : list class_name) (name : string)
  : option class_attr :=
  match cs with
  | [] => None
  | c :: cs' =>
      match class_dict c !! name with
      | Some a => Some a
      | None => mro_lookup cs' name
      end
  end.

Definition class_lookup (c : class_name) (name : string) : option class_attr :=
  mro_lookup (mro c) name.

(** What [super()] written inside class [c] looks up for an instance of
    class [c0]: the classes after [c] in the MRO of [c0]. *)
Fixpoint mro_after (c : class_name) (cs : list class_name)
  : list class_name :=
  match cs with
  | [] => []
  | x :: cs' => if bool_decide (x = c) then cs' else mro_after c cs'
  end.

Definition super_lookup (c c0 : class_name) (name : string)
  : option class_attr :=
  mro_lookup (mro_after c (mro c0)) name.

(** ** Instances and the heap *)

Module Obj.

(** An instance: its class and its [__dict__]. *)
Record instance : Type := Instance {
  inst_class : class_name;
  inst_dict : gmap string value
}.

(** The heap holds every instance ever created (nothing is collected); the
    location of an instance is its index. *)
Abbreviation heap := (list instance) (only parsing).

(** A computation reads and updates the heap, and returns or raises; what it
    did to the heap before it raised stays done. *)
Definition M (A : Type) : Type := heap → result A * heap.

Global Instance M_ret : MRet M := λ A a h, (Ok a, h).
Global Instance M_bind : MBind M := λ A B f m h,
  match m h with
  | (Ok a, h') => f a h'
  | (Raise e, h') => (Raise e, h')
  end.

Definition raise {A} (e : exn) : M A := λ h, (Raise e, h).
Definition lift {A} (r : result A) : M A := λ h, (r, h).

(** [object.__new__(c)]: a fresh instance with an empty [__dict__]. *)
Definition alloc (c : class_name) : M value := λ h,
  (Ok (VRef (length h)), h ++ [Instance c ∅]).

(** [obj.name] as an expression. On an instance: the [__dict__] first, then
    the class along its MRO, where a function becomes a method bound to the
    instance (the classes of the program declare no data descriptor). The
    other values of the model ([None], [bool], [int], [str], a bound method)
    have none of the attributes that the program names ([name], [email],
    [level], [role], [greet], [promote]). A reference outside the heap has
    no counterpart in Python; the model answers [SystemError]. *)
Definition getattr (obj : value) (name : string) : M value := λ h,
  match obj with
  | VRef l =>
      match h !! l with
      | Some inst =>
          match inst_dict inst !! name with
          | Some v => (Ok v, h)
          | None =>
              match class_lookup (inst_class inst) name with
              | Some (CVal v) => (Ok v, h)
              | Some (CFun f) => (Ok (VMethod f l), h)
              | None => (Raise (AttributeError name), h)
              end
          end
      | None => (Raise SystemError, h)
      end
  | _ => (Raise (AttributeError name), h)
  end.

(** [obj.name = v]. On an instance it writes the [__dict__]; the other
    values of the model have no settable attribute. *)
Definition setattr (obj : value) (name : string) (v : value) : M value := λ h,
  match obj with
  | VRef l =>
      match h !! l with
      | Some inst =>
          let inst' :=
            Instance (inst_class inst) (<[name := v]> (inst_dict inst)) in
          (Ok VNone, <[l := inst']> h)
      | None => (Raise SystemError, h)
      end
  | _ => (Raise (AttributeError name), h)
  end.

(** [repr] of an instance as [object.__repr__] prints it; the address shown
    is the identity of the instance, here its location. *)
Definition object_repr (c : class_name) (l : loc) : string :=
  "<models." +:+ class_qualname c +:+ " object at 0x"
  +:+ HexadecimalString.NilZero.string_of_uint (Nat.to_hex_uint l) +:+ ">".

(** [format(v)] with an empty format specification, what an f-string field
    [{v}] expands to: [str(v)] for the values of the model. *)
Definition py_format (v : value) : M string := λ h,
  match v with
  | VNone => (Ok "None", h)
  | VBool b => (Ok (if b then "True" else "False"), h)
  | VInt n => (int_str n, h)
  | VStr s => (Ok s, h)
  | VRef l =>
      match h !! l with
      | Some inst => (Ok (object_repr (inst_class inst) l), h)
      | None => (Raise SystemError, h)
      end
  | VMethod f l =>
      match h !! l with
      | Some inst =>
          (Ok ("<bound method " +:+ fun_qualname f +:+ " of "
               +:+ object_repr (inst_class inst) l +:+ ">"), h)
      | None => (Raise SystemError, h)
      end
  end.

End Obj.
Import Obj.

(** ** models.py *)

Module User.

(** [def __init__(self, name, email):
         self.name = name
         self.email = email] *)
Definition __init__ (self name email : value) : M value :=
  setattr self "name" name;;
  setattr self "email" email;;
  mret VNone.

(** [def greet(self): return f"Hello, {self.name}!"] *)
Definition greet (self : value) : M value :=
  name ← getattr self "name";
  s ← py_format name;
  mret (VStr ("Hello, " +:+ s +:+ "!")).

End User.

Module Admin.

(** The class variable [role = "admin"] is the entry [role] of
    [class_dict AdminClass]. *)

(** [def __init__(self, name, email, level=1):
         super().__init__(name, email)
         self.level = level]
    [super()] inside [Admin] continues the lookup after [Admin] in the MRO
    of the class of [self]. This function runs only when an [Admin] is
    constructed ([new] below), [Admin] has no subclass, and the lookup then
    finds [User.__init__] (lemma [super_init_resolves]). *)
Definition __init__ (self name email : value) (level : option value)
  : M value :=
  let level := default (VInt 1) level in
  User.__init__ self name email;;
  setattr self "level" level;;
  mret VNone.

(** [def promote(self): self.level += 1] *)
Definition promote (self : value) : M value :=
  level ← getattr self "level";
  level' ← lift (py_add level (VInt 1));
  setattr self "level" level';;
  mret VNone.

End Admin.

(** ** Calls *)

(** A function applied to positional arguments; a wrong number of arguments
    is a [TypeError]. *)
Definition apply_fun (f : fun_id) (args : list value) : M value :=
  match f, args with
  | User_init, [self; name; email] => User.__init__ self name email
  | User_greet, [self] => User.greet self
  | Admin_init, [self; name; email] => Admin.__init__ self name email None
  | Admin_init, [self; name; email; level] =>
      Admin.__init__ self name email (Some level)
  | Admin_promote, [self] => Admin.promote self
  | _, _ => raise TypeError
  end.

(** A call [callee(args...)]: a bound method passes its instance first; no
    other value of the model is callable. *)
Definition call (callee : value) (args : list value) : M value :=
  match callee with
  | VMethod f self => apply_fun f (VRef self :: args)
  | _ => raise TypeError
  end.

(** A method call [obj.name(args...)]: the attribute is looked up, then
    called. *)
Definition call_method (obj : value) (name : string) (args : list value)
  : M value :=
  m ← getattr obj name;
  call m args.

(** A call [c(args...)] of a class [c]: create the instance, then run the
    [__init__] that the class resolves to, which has to return [None].
    [object.__init__], reached when no class of the MRO declares one, takes
    no argument. *)
Definition new (c : class_name) (args : list value) : M value :=
  self ← alloc c;
  match class_lookup c "__init__" with
  | Some (CFun f) =>
      r ← apply_fun f (self :: args);
      if bool_decide (r = VNone) then mret self else raise TypeError
  | Some (CVal _) => raise TypeError
  | None => if bool_decide (args = []) then mret self else raise TypeError
  end.

(** ** service.py *)

Module service.

(** [def create_user(name, email): return User(name, email)] *)
Definition create_user (name email : value) : M value :=
  new UserClass [name; email].

(** [def create_admin(name, email, level=1):
         return Admin(name, email, level)] *)
Definition create_admin (name email : value) (level : option value)
  : M value :=
  let level := default (VInt 1) level in
  new AdminClass [name; email; level].

(** [def get_greeting(user): return user.greet()] *)
Definition get_greeting (user : value) : M value :=
  call_method user "greet" [].

End service.
Import service.

(** ** utils.py *)

Module utils.

Definition MAX_NAME_LENGTH : value := VInt 100.

(** [def validate_email(email): return "@" in email and "." in email] *)
Definition validate_email (email : value) : result value :=
  py_and (py_in (VStr "@") email) (py_in (VStr ".") email).

(** [def truncate_name(name, max_length=MAX_NAME_LENGTH):
         if len(name) > max_length: return name[:max_length]
         return name] *)
Definition truncate_name (name : value) (max_length : option value)
  : result value :=
  let max_length := default MAX_NAME_LENGTH max_length in
  n ← py_len name;
  c ← py_gt n max_length;
  if truthy c then py_slice_to name max_length else Ok name.

End utils.
Import utils.

(** ** Vocabulary of the statements *)

(** [sub] occurs in [s]. *)
Definition has_substring (s sub : string) : Prop :=
  ∃ a b, s = a +:+ sub +:+ b.

(** [r] is the first [k] characters of [s]. *)
Definition first_chars (k : Z) (s r : string) : Prop :=
  (∃ rest, s = r +:+ rest) ∧ len r = k.

(** [truncate_name(name, max_length)] is the first [max_length] characters
    of a longer [name], and [name] itself otherwise. *)
Definition truncates_to (name : string) (max_length : Z) : Prop :=
  (max_length < len name →
   ∃ r, truncate_name (VStr name) (Some (VInt max_length)) = Ok (VStr r)
        ∧ first_chars max_length name r)
  ∧ (len name ≤ max_length →
     truncate_name (VStr name) (Some (VInt max_length)) = Ok (VStr name)).

(** [n] copies of the character [c]. *)
Fixpoint str_repeat (c : ascii) (n : nat) : string :=
  match n with
  | O => EmptyString
  | S n' => String c (str_repeat c n')
  end.

(** The [__dict__] of a [User] and of an [Admin] right after construction. *)
Definition user_dict (name email : value) : gmap string value :=
  <["email" := email]> (<["name" := name]> ∅).

Definition admin_dict (name email level : value) : gmap string value :=
  <["level" := level]> (user_dict name email).

(** ** Sessions

    The operations that the program defines, as a caller invokes them: the
    two constructors, the two methods, and the functions of service.py and
    utils.py. *)
Inductive op : Type :=
  | Op_User (name email : value)
  | Op_Admin (name email : value) (level : option value)
  | Op_greet (self : value)
  | Op_promote (self : value)
  | Op_create_user (name email : value)
  | Op_create_admin (name email : value) (level : option value)
  | Op_get_greeting (user : value)
  | Op_validate_email (email : value)
  | Op_truncate_name (name : value) (max_length : option value).

Global Instance op_eq_dec : EqDecision op.
Proof. solve_decision. Defined.

Definition run_op (o : op) : M value :=
  match o with
  | Op_User name email => new UserClass [name; email]
  | Op_Admin name email level =>
      new AdminClass (name :: email :: option_list level)
  | Op_greet self => call_method self "greet" []
  | Op_promote self => call_method self "promote" []
  | Op_create_user name email => create_user name email
  | Op_create_admin name email level => create_admin name email level
  | Op_get_greeting user => get_greeting user
  | Op_validate_email email => lift (validate_email email)
  | Op_truncate_name name max_length => lift (truncate_name name max_length)
  end.

(** The heap after a session: the operations run one after the other, and
    one that raises does not end the session. *)
Definition run_ops (ops : list op) (h : heap) : heap :=
  foldl (λ h o, (run_op o h).2) h ops.

(** The level of the [Admin] at [l], when it is an integer. *)
Definition admin_level (h : heap) (l : loc) : option Z :=
  match h !! l with
  | Some (Instance AdminClass d) =>
      match d !! "level" with
      | Some (VInt z) => Some z
      | _ => None
      end
  | _ => None
  end.

(** No instance of the heap has an attribute of its own under the name of a
    method. The operations only ever assign [name], [email] and [level]. *)
Definition plain (h : heap) : Prop :=
  ∀ l inst, h !! l = Some inst →
    inst_dict inst !! "greet" = None ∧ inst_dict inst !! "promote" = None.

(** ** Kinds of values *)

Definition is_str (v : value) : Prop := ∃ s, v = VStr s.

(** [v] is an object of the heap [h]: a reference points into it. *)
Definition live (h : heap) (v : value) : Prop :=
  match v with
  | VRef l | VMethod _ l => is_Some (h !! l)
  | _ => True
  end.

(** The object [v] has an attribute [name], of its own or from its class. *)
Definition exposes (h : heap) (v : value) (name : string) : Prop :=
  ∃ l inst, v = VRef l ∧ h !! l = Some inst
    ∧ (is_Some (inst_dict inst !! name)
       ∨ is_Some (class_lookup (inst_class inst) name)).

(** ** Shape of the instances

    What the constructors build, whatever the arguments: a [User] with the
    attributes [name] and [email], an [Admin] with [level] besides. *)
Definition shaped_instance (inst : instance) : Prop :=
  match inst_class inst with
  | ObjectClass => False
  | UserClass => ∃ name email, inst_dict inst = user_dict name email
  | AdminClass =>
      ∃ name email level, inst_dict inst = admin_dict name email level
  end.

Definition shaped (h : heap) : Prop :=
  ∀ l inst, h !! l = Some inst → shaped_instance inst.

(** A value where Python accepts an integer: an [int] or a [bool]. *)
Definition is_index (v : value) : Prop := is_Some (as_int v).

(** The operations that construct an instance. *)
Definition creates (o : op) : bool :=
  match o with
  | Op_User _ _ | Op_Admin _ _ _
  | Op_create_user _ _ | Op_create_admin _ _ _ => true
  | _ => false
  end.

(** ** Failure modes

    The arguments of an operation, and the sessions whose arguments are
    objects that exist when they are passed. *)
Definition op_args (o : op) : list value :=
  match o with
  | Op_User name email | Op_create_user name email => [name; email]
  | Op_Admin name email level | Op_create_admin name email level =>
      name :: email :: option_list level
  | Op_greet v | Op_promote v | Op_get_greeting v | Op_validate_email v =>
      [v]
  | Op_truncate_name name max_length => name :: option_list max_length
  end.

Definition live_op (h : heap) (o : op) : Prop := Forall (live h) (op_args o).

Inductive session : heap → Prop :=
  | session_start : session []
  | session_step h o :
      session h → live_op h o → session (run_op o h).2.

(** Every value that an instance holds is an object of the heap. *)
Definition closed (h : heap) : Prop :=
  ∀ l inst a v,
    h !! l = Some inst → inst_dict inst !! a = Some v → live h v.

(** The object on which an operation calls [greet]. *)
Definition greet_call (o : op) : option value :=
  match o with
  | Op_greet v | Op_get_greeting v => Some v
  | _ => None
  end.

(** The ways in which an operation fails, each with what it raises:
    - [greet] is called on an object that has no such attribute;
    - [greet] formats a name that is an integer of too many digits;
    - [promote] is called on an object that has no such attribute;
    - [promote] adds one to a level that is not a number;
    - [validate_email] is given something that is not a string;
    - [truncate_name] is given a name that is not a string, or a bound that
      is not an integer. *)
Inductive fails (h : heap) : op → exn → Prop :=
  | fails_no_greet o obj :
      greet_call o = Some obj → ¬ exposes h obj "greet" →
      fails h o (AttributeError "greet")
  | fails_long_name o l inst n :
      greet_call o = Some (VRef l) → h !! l = Some inst →
      inst_dict inst !! "name" = Some (VInt n) →
      (int_max_str_digits < int_digits n)%nat →
      fails h o ValueError
  | fails_no_promote obj :
      ¬ exposes h obj "promote" →
      fails h (Op_promote obj) (AttributeError "promote")
  | fails_level l inst lv :
      h !! l = Some inst → inst_class inst = AdminClass →
      inst_dict inst !! "level" = Some lv → as_int lv = None →
      fails h (Op_promote (VRef l)) TypeError
  | fails_email email :
      ¬ is_str email → fails h (Op_validate_email email) TypeError
  | fails_truncate name max_length :
      ¬ (is_str name ∧ from_option is_index True max_length) →
      fails h (Op_truncate_name name max_length) TypeError.

(** C8 as it is stated, for one operation in one state: it raises only as
    [get_greeting] on an object without [greet], and then the
    [AttributeError] for [greet]. *)
Definition single_failure_mode (h : heap) (o : op) : Prop :=
  ∀ e, (run_op o h).1 = Raise e ↔
       ∃ user, o = Op_get_greeting user ∧ ¬ exposes h user "greet"
               ∧ e = AttributeError "greet".

(** * Properties *)

(** ** Strings *)

Section strings.
Implicit Types s sub r : string.

Lemma starts_with_spec s sub :
  starts_with s sub = true ↔ ∃ rest, s = sub +:+ rest.
Proof.
  revert s. induction sub as [|a sub IH]; intros s; simpl.
  - split; [intros _; by exists s | done].
  - destruct s as [|b s]; simpl.
    + split; [done | by intros [rest ?]].
    + rewrite andb_true_iff, bool_decide_eq_true, IH. split.
      * intros [-> [rest ->]]. by exists rest.
      * intros [rest [= -> ->]]. split; [done | by exists rest].
Qed.

Lemma str_contains_spec s sub :
  str_contains s sub = true ↔ has_substring s sub.
Proof.
  unfold has_substring.
  induction s as [|c s IH]; simpl; rewrite orb_true_iff, starts_with_spec.
  - split.
    + intros [[rest Hs] | ?]; [| done]. exists EmptyString, rest. done.
    + intros [a [b Hs]]. left. destruct a; [| done]. by exists b.
  - rewrite IH. split.
    + intros [[rest Hs] | [a [b Hs]]].
      * exists EmptyString, rest. done.
      * exists (String c a), b. simpl. by rewrite Hs.
    + intros [[|c' a] [b Hs]]; simpl in Hs.
      * left. by exists b.
      * right. injection Hs as -> ->. by exists a, b.
Qed.

Lemma str_take_length n s :
  String.length (str_take n s) = Nat.min n (String.length s).
Proof.
  revert n. induction s as [|c s IH]; intros [|n]; simpl; try done.
  by rewrite IH.
Qed.

Lemma str_take_prefix n s : ∃ rest, s = str_take n s +:+ rest.
Proof.
  revert n. induction s as [|c s IH]; intros [|n]; simpl.
  - by exists EmptyString.
  - by exists EmptyString.
  - by exists (String c s).
  - destruct (IH n) as [rest Hrest]. exists rest.
    change (String c s = String c (str_take n s +:+ rest)). by f_equal.
Qed.

End strings.

(** ** utils.py *)

Lemma validate_email_str (email : string) :
  validate_email (VStr email)
  = Ok (VBool (str_contains email "@" && str_contains email ".")).
Proof.
  unfold validate_email, py_and. simpl.
  by destruct (str_contains email "@").
Qed.

(** C1. On a string, [validate_email] returns a boolean, which is true
    exactly when the string contains ["@"] and contains ["."], wherever they
    stand; the four examples of the specification evaluate as it gives
    them. *)
Theorem validate_email_iff_both_substrings (email : string) :
  (∃ b : bool,
      validate_email (VStr email) = Ok (VBool b)
      ∧ (b = true ↔ has_substring email "@" ∧ has_substring email "."))
  ∧ validate_email (VStr "a@b.com") = Ok (VBool true)
  ∧ validate_email (VStr "abc") = Ok (VBool false)
  ∧ validate_email (VStr "a.b@c") = Ok (VBool true)
  ∧ validate_email (VStr "@.") = Ok (VBool true).
Proof.
  split; [| by repeat split].
  eexists. split; [apply validate_email_str |].
  by rewrite andb_true_iff, !str_contains_spec.
Qed.

Lemma truncate_name_str (name : string) (k : Z) :
  truncate_name (VStr name) (Some (VInt k))
  = Ok (VStr (if k <? len name
              then str_take (Z.to_nat (slice_stop (len name) k)) name
              else name)).
Proof.
  unfold truncate_name. simpl. by destruct (k <? len name).
Qed.

Lemma truncate_name_default (name : value) :
  truncate_name name None = truncate_name name (Some (VInt 100)).
Proof. reflexivity. Qed.

Lemma str_take_first_chars (name : string) (k : Z) :
  0 ≤ k → k ≤ len name →
  first_chars k name (str_take (Z.to_nat k) name).
Proof.
  unfold first_chars, len. intros Hk Hlen. split.
  - apply str_take_prefix.
  - rewrite str_take_length. lia.
Qed.

Lemma truncate_name_long (name : string) (k : Z) :
  0 ≤ k → k < len name →
  truncate_name (VStr name) (Some (VInt k))
  = Ok (VStr (str_take (Z.to_nat k) name)).
Proof.
  intros Hk Hlen. rewrite truncate_name_str.
  destruct (Z.ltb_spec k (len name)); [| lia].
  unfold slice_stop. destruct (Z.ltb_spec k 0); [lia |].
  by rewrite Z.min_l by lia.
Qed.

Lemma truncate_name_short (name : string) (k : Z) :
  len name ≤ k →
  truncate_name (VStr name) (Some (VInt k)) = Ok (VStr name).
Proof.
  intros Hlen. rewrite truncate_name_str.
  by destruct (Z.ltb_spec k (len name)); [lia |].
Qed.

(** C2, as stated, fails at a negative [max_length]: every name is longer
    than a negative bound, and the slice [name[:-1]] drops the last
    character, so the result is no string of -1 characters. *)
Lemma truncate_name_negative_max_length :
  truncate_name (VStr "hello") (Some (VInt (-1))) = Ok (VStr "hell")
  ∧ ¬ truncates_to "hello" (-1).
Proof.
  split; [reflexivity |].
  intros [Hlong _]. destruct Hlong as [r [_ [_ Hlen]]]; [done |].
  unfold len in Hlen. lia.
Qed.

(** C2, amended. For a non-negative [max_length], [truncate_name] returns
    the first [max_length] characters of a longer name and returns any other
    name unchanged; the default [max_length] is [MAX_NAME_LENGTH = 100], so
    by default a name of 100 characters is returned unchanged and a name of
    101 characters yields its first 100. *)
Theorem truncate_name_nonnegative (name : string) (max_length : Z)
    (Hmax : 0 ≤ max_length) :
  truncates_to name max_length
  ∧ MAX_NAME_LENGTH = VInt 100
  ∧ truncate_name (VStr name) None
    = truncate_name (VStr name) (Some MAX_NAME_LENGTH)
  ∧ (len name = 100 → truncate_name (VStr name) None = Ok (VStr name))
  ∧ (len name = 101 →
     ∃ r, truncate_name (VStr name) None = Ok (VStr r)
          ∧ first_chars 100 name r).
Proof.
  repeat split.
  - intros Hlen. eexists. split; [by apply truncate_name_long |].
    apply str_take_first_chars; lia.
  - apply truncate_name_short.
  - intros Hlen. rewrite truncate_name_default.
    apply truncate_name_short. lia.
  - intros Hlen. rewrite truncate_name_default. eexists.
    split; [apply truncate_name_long; lia |].
    apply (str_take_first_chars name 100); lia.
Qed.

Lemma truncate_name_nonnegative_witness :
  let x100 := str_repeat "x" 100 in
  let x101 := str_repeat "x" 101 in
  (0 ≤ 5 ∧ truncates_to "abcdefghij" 5)
  ∧ (0 ≤ 10 ∧ truncates_to "hello" 10)
  ∧ (len x100 = 100 ∧ truncate_name (VStr x100) None = Ok (VStr x100))
  ∧ (len x101 = 101 ∧
     ∃ r, truncate_name (VStr x101) None = Ok (VStr r)
          ∧ first_chars 100 x101 r).
Proof.
  intros x100 x101.
  split.
  { split; [lia |]. apply (truncate_name_nonnegative "abcdefghij" 5). lia. }
  split.
  { split; [lia |]. apply (truncate_name_nonnegative "hello" 10). lia. }
  split.
  - split; [reflexivity |].
    apply (truncate_name_nonnegative x100 0); [lia | reflexivity].
  - split; [reflexivity |].
    apply (truncate_name_nonnegative x101 0); [lia | reflexivity].
Defined.

(** C10. For a non-negative [max_length], truncating twice is truncating
    once: the result has at most [max_length] characters and is a prefix of
    the name. The bound on [max_length] is needed: at -1 each call drops one
    more character. *)
Theorem truncate_name_idempotent (name : string) (max_length : Z)
    (Hmax : 0 ≤ max_length) :
  (∃ r,
      truncate_name (VStr name) (Some (VInt max_length)) = Ok (VStr r)
      ∧ truncate_name (VStr r) (Some (VInt max_length)) = Ok (VStr r)
      ∧ len r ≤ max_length
      ∧ ∃ rest, name = r +:+ rest)
  ∧ (truncate_name (VStr "hello") (Some (VInt (-1))) = Ok (VStr "hell")
     ∧ truncate_name (VStr "hell") (Some (VInt (-1))) = Ok (VStr "hel")).
Proof.
  split; [| by split].
  destruct (Z.lt_ge_cases max_length (len name)) as [Hlong | Hshort].
  - exists (str_take (Z.to_nat max_length) name).
    destruct (str_take_first_chars name max_length) as [Hpre Hlen];
      [lia .. |].
    split; [by apply truncate_name_long |].
    split; [apply truncate_name_short; lia |].
    split; [lia | done].
  - exists name. rewrite !truncate_name_short by done.
    repeat split; [done |]. exists EmptyString.
    clear. induction name as [|c name IH]; [done |].
    change (String c name = String c (name +:+ EmptyString)). by f_equal.
Qed.

Lemma truncate_name_idempotent_witness :
  0 ≤ 5
  ∧ ∃ r,
      truncate_name (VStr "abcdefghij") (Some (VInt 5)) = Ok (VStr r)
      ∧ truncate_name (VStr r) (Some (VInt 5)) = Ok (VStr r)
      ∧ len r ≤ 5
      ∧ ∃ rest, "abcdefghij" = r +:+ rest.
Proof.
  split; [lia |].
  apply (truncate_name_idempotent "abcdefghij" 5). lia.
Defined.

(** ** The object model *)

Ltac unfold_M := unfold mbind, M_bind, mret, M_ret, raise, lift.

Lemma class_lookup_User_init :
  class_lookup UserClass "__init__" = Some (CFun User_init).
Proof. reflexivity. Qed.

Lemma class_lookup_Admin_init :
  class_lookup AdminClass "__init__" = Some (CFun Admin_init).
Proof. reflexivity. Qed.

Lemma class_lookup_User_greet :
  class_lookup UserClass "greet" = Some (CFun User_greet).
Proof. reflexivity. Qed.

Lemma class_lookup_Admin_greet :
  class_lookup AdminClass "greet" = Some (CFun User_greet).
Proof. reflexivity. Qed.

Lemma class_lookup_Object_greet : class_lookup ObjectClass "greet" = None.
Proof. reflexivity. Qed.

Lemma class_lookup_Admin_promote :
  class_lookup AdminClass "promote" = Some (CFun Admin_promote).
Proof. reflexivity. Qed.

Lemma class_lookup_User_promote : class_lookup UserClass "promote" = None.
Proof. reflexivity. Qed.

Lemma class_lookup_Object_promote : class_lookup ObjectClass "promote" = None.
Proof. reflexivity. Qed.

Lemma class_lookup_Admin_role :
  class_lookup AdminClass "role" = Some (CVal (VStr "admin")).
Proof. reflexivity. Qed.

(** [super().__init__] inside [Admin], for an instance of [Admin], is
    [User.__init__]: the translation of [Admin.__init__] calls it directly. *)
Lemma super_init_resolves :
  super_lookup AdminClass AdminClass "__init__" = Some (CFun User_init)
  ∧ ∀ self name email,
      apply_fun User_init [self; name; email] = User.__init__ self name email.
Proof. by split. Qed.

Section heap.
Implicit Types (h : heap) (l : loc) (inst : instance) (v : value).

Lemma lookup_snoc h inst : (h ++ [inst]) !! length h = Some inst.
Proof. by apply list_lookup_middle. Qed.

Lemma insert_snoc h inst inst' :
  <[length h := inst']> (h ++ [inst]) = h ++ [inst'].
Proof. induction h as [|x h IH]; simpl; [done | by f_equal]. Qed.

Lemma setattr_run h l inst name v :
  h !! l = Some inst →
  setattr (VRef l) name v h
  = (Ok VNone,
     <[l := Instance (inst_class inst) (<[name := v]> (inst_dict inst))]> h).
Proof. intros Hl. unfold setattr. by rewrite Hl. Qed.

Lemma getattr_own h l inst name v :
  h !! l = Some inst → inst_dict inst !! name = Some v →
  getattr (VRef l) name h = (Ok v, h).
Proof. intros Hl Hd. unfold getattr. by rewrite Hl, Hd. Qed.

Lemma getattr_class h l inst name :
  h !! l = Some inst → inst_dict inst !! name = None →
  getattr (VRef l) name h
  = (match class_lookup (inst_class inst) name with
     | Some (CVal v) => Ok v
     | Some (CFun f) => Ok (VMethod f l)
     | None => Raise (AttributeError name)
     end, h).
Proof.
  intros Hl Hd. unfold getattr. rewrite Hl, Hd.
  by destruct (class_lookup _ _) as [[]|].
Qed.

(** No operation of the model removes an instance or moves it. *)
Lemma getattr_heap obj name h : (getattr obj name h).2 = h.
Proof.
  unfold getattr. destruct obj; try done.
  destruct (h !! l) as [inst|]; [| done].
  destruct (inst_dict inst !! name); [done |].
  by destruct (class_lookup _ _) as [[]|].
Qed.

Lemma py_format_heap v h : (py_format v h).2 = h.
Proof. unfold py_format. destruct v; try done; by destruct (h !! _). Qed.

Lemma User_init_run h l inst name email :
  h !! l = Some inst →
  User.__init__ (VRef l) name email h
  = (Ok VNone,
     <[l := Instance (inst_class inst)
              (<["email" := email]> (<["name" := name]> (inst_dict inst)))]> h).
Proof.
  intros Hl. unfold User.__init__. unfold_M.
  rewrite (setattr_run _ _ _ _ _ Hl).
  assert (l < length h)%nat as Hlt by by eapply lookup_lt_Some.
  erewrite setattr_run by by apply list_lookup_insert_eq.
  simpl. by rewrite list_insert_insert_eq.
Qed.

Lemma Admin_init_run h l inst name email level :
  h !! l = Some inst →
  Admin.__init__ (VRef l) name email level h
  = (Ok VNone,
     <[l := Instance (inst_class inst)
              (<["level" := default (VInt 1) level]>
                 (<["email" := email]>
                    (<["name" := name]> (inst_dict inst))))]> h).
Proof.
  intros Hl. unfold Admin.__init__. unfold_M.
  rewrite (User_init_run _ _ _ _ _ Hl).
  assert (l < length h)%nat as Hlt by by eapply lookup_lt_Some.
  erewrite setattr_run by by apply list_lookup_insert_eq.
  simpl. by rewrite list_insert_insert_eq.
Qed.

Lemma new_User_run h name email :
  new UserClass [name; email] h
  = (Ok (VRef (length h)), h ++ [Instance UserClass (user_dict name email)]).
Proof.
  unfold new, alloc. unfold_M. rewrite class_lookup_User_init. simpl.
  erewrite User_init_run by apply lookup_snoc.
  by rewrite insert_snoc.
Qed.

Lemma new_Admin_run h name email level :
  new AdminClass (name :: email :: option_list level) h
  = (Ok (VRef (length h)),
     h ++ [Instance AdminClass
             (admin_dict name email (default (VInt 1) level))]).
Proof.
  unfold new, alloc. unfold_M. rewrite class_lookup_Admin_init.
  destruct level as [level|]; simpl;
    (erewrite Admin_init_run by apply lookup_snoc);
    by rewrite insert_snoc.
Qed.

Lemma create_user_run h name email :
  create_user name email h
  = (Ok (VRef (length h)), h ++ [Instance UserClass (user_dict name email)]).
Proof. apply new_User_run. Qed.

Lemma create_admin_run h name email level :
  create_admin name email level h
  = (Ok (VRef (length h)),
     h ++ [Instance AdminClass
             (admin_dict name email (default (VInt 1) level))]).
Proof.
  unfold create_admin.
  apply (new_Admin_run h name email (Some (default (VInt 1) level))).
Qed.

End heap.

(** ** Attribute dictionaries *)

Section dicts.
Implicit Types name email level : value.

Lemma user_dict_name name email : user_dict name email !! "name" = Some name.
Proof. unfold user_dict. by simplify_map_eq. Qed.

Lemma user_dict_email name email :
  user_dict name email !! "email" = Some email.
Proof. unfold user_dict. by simplify_map_eq. Qed.

Lemma user_dict_other name email a :
  a ≠ "name" → a ≠ "email" → user_dict name email !! a = None.
Proof. intros. unfold user_dict. by simplify_map_eq. Qed.

Lemma admin_dict_name name email level :
  admin_dict name email level !! "name" = Some name.
Proof. unfold admin_dict, user_dict. by simplify_map_eq. Qed.

Lemma admin_dict_email name email level :
  admin_dict name email level !! "email" = Some email.
Proof. unfold admin_dict, user_dict. by simplify_map_eq. Qed.

Lemma admin_dict_level name email level :
  admin_dict name email level !! "level" = Some level.
Proof. unfold admin_dict. by simplify_map_eq. Qed.

Lemma admin_dict_other name email level a :
  a ≠ "name" → a ≠ "email" → a ≠ "level" →
  admin_dict name email level !! a = None.
Proof. intros. unfold admin_dict, user_dict. by simplify_map_eq. Qed.

Lemma admin_dict_promoted name email level level' :
  <["level" := level']> (admin_dict name email level)
  = admin_dict name email level'.
Proof. unfold admin_dict. apply insert_insert_eq. Qed.

End dicts.

(** ** models.py and service.py *)

Section methods.
Implicit Types (h : heap) (l : loc) (inst : instance) (v : value).

(** A method call on an instance that does not shadow the method runs the
    function that the class resolves the name to. *)
Lemma call_method_class h l inst name f args :
  h !! l = Some inst → inst_dict inst !! name = None →
  class_lookup (inst_class inst) name = Some (CFun f) →
  call_method (VRef l) name args h = apply_fun f (VRef l :: args) h.
Proof.
  intros Hl Hd Hc. unfold call_method. unfold_M.
  by rewrite (getattr_class _ _ _ _ Hl Hd), Hc.
Qed.

Lemma call_method_missing h l inst name args :
  h !! l = Some inst → inst_dict inst !! name = None →
  class_lookup (inst_class inst) name = None →
  call_method (VRef l) name args h = (Raise (AttributeError name), h).
Proof.
  intros Hl Hd Hc. unfold call_method. unfold_M.
  by rewrite (getattr_class _ _ _ _ Hl Hd), Hc.
Qed.

Lemma greet_run h l inst (name : string) :
  h !! l = Some inst → inst_dict inst !! "name" = Some (VStr name) →
  User.greet (VRef l) h = (Ok (VStr ("Hello, " +:+ name +:+ "!")), h).
Proof.
  intros Hl Hd. unfold User.greet. unfold_M.
  by rewrite (getattr_own _ _ _ _ _ Hl Hd).
Qed.

Lemma greet_heap v h : (User.greet v h).2 = h.
Proof.
  unfold User.greet. unfold_M.
  pose proof (getattr_heap v "name" h) as Hg.
  destruct (getattr v "name" h) as [[name|e] h1]; simpl in Hg; subst h1;
    [| done].
  pose proof (py_format_heap name h) as Hf.
  by destruct (py_format name h) as [[s|e] h1]; simpl in Hf; subst h1.
Qed.

Lemma promote_run h l inst (z : Z) :
  h !! l = Some inst → inst_dict inst !! "level" = Some (VInt z) →
  Admin.promote (VRef l) h
  = (Ok VNone,
     <[l := Instance (inst_class inst)
              (<["level" := VInt (z + 1)]> (inst_dict inst))]> h).
Proof.
  intros Hl Hd. unfold Admin.promote. unfold_M.
  rewrite (getattr_own _ _ _ _ _ Hl Hd). simpl. by rewrite Hl.
Qed.

(** The method call [a.promote()] on an [Admin] whose level is an
    integer. *)
Lemma call_promote_run h l inst (z : Z) :
  h !! l = Some inst → inst_class inst = AdminClass →
  inst_dict inst !! "promote" = None →
  inst_dict inst !! "level" = Some (VInt z) →
  call_method (VRef l) "promote" [] h
  = (Ok VNone,
     <[l := Instance AdminClass
              (<["level" := VInt (z + 1)]> (inst_dict inst))]> h).
Proof.
  intros Hl Hc Hp Hd.
  rewrite (call_method_class _ _ _ _ Admin_promote _ Hl Hp)
    by (rewrite Hc; apply class_lookup_Admin_promote).
  simpl. rewrite (promote_run _ _ _ _ Hl Hd). by rewrite Hc.
Qed.

(** The method call [u.greet()] on a [User] or an [Admin]. *)
Lemma call_greet_run h l inst (name : string) :
  h !! l = Some inst → inst_class inst ≠ ObjectClass →
  inst_dict inst !! "greet" = None →
  inst_dict inst !! "name" = Some (VStr name) →
  call_method (VRef l) "greet" [] h
  = (Ok (VStr ("Hello, " +:+ name +:+ "!")), h).
Proof.
  intros Hl Hc Hg Hd.
  rewrite (call_method_class _ _ _ _ User_greet _ Hl Hg)
    by by destruct (inst_class inst).
  simpl. by apply greet_run with inst.
Qed.

(** What [promote] does to the heap, whatever it is called on: nothing, or
    one more on the level of the instance. *)
Lemma promote_effect v h :
  (Admin.promote v h).2 = h
  ∨ ∃ l inst lv z,
      v = VRef l ∧ h !! l = Some inst
      ∧ inst_dict inst !! "level" = Some lv ∧ as_int lv = Some z
      ∧ (Admin.promote v h).2
        = <[l := Instance (inst_class inst)
                   (<["level" := VInt (z + 1)]> (inst_dict inst))]> h.
Proof.
  unfold Admin.promote. unfold_M.
  destruct v as [| | | |l|]; try by left.
  unfold getattr. destruct (h !! l) as [inst|] eqn:Hl; [| by left].
  destruct (inst_dict inst !! "level") as [lv|] eqn:Hd.
  - unfold py_add. destruct (as_int lv) as [z|] eqn:Hz; simpl.
    + right. exists l, inst, lv, z. by rewrite Hl.
    + left. by destruct lv.
  - left. by destruct (inst_class inst).
Qed.

Lemma promote_other v h l :
  v ≠ VRef l → (Admin.promote v h).2 !! l = h !! l.
Proof.
  intros Hv. destruct (promote_effect v h) as [-> | Heff]; [done |].
  destruct Heff as (l' & inst & lv & z & -> & _ & _ & _ & ->).
  apply list_lookup_insert_ne. congruence.
Qed.

End methods.

(** C3. Whatever the heap, the name and the email: constructing a [User]
    and calling [greet()] on it returns the string made of ["Hello, "], the
    name and ["!"], and raises nothing; the same through [create_user]. *)
Theorem greet_returns_hello_name (h : heap) (name email : string) :
  let h' := h ++ [Instance UserClass (user_dict (VStr name) (VStr email))] in
  (u ← new UserClass [VStr name; VStr email]; call_method u "greet" []) h
  = (Ok (VStr ("Hello, " +:+ name +:+ "!")), h')
  ∧ (u ← create_user (VStr name) (VStr email); call_method u "greet" []) h
    = (Ok (VStr ("Hello, " +:+ name +:+ "!")), h').
Proof.
  assert ((u ← new UserClass [VStr name; VStr email];
           call_method u "greet" []) h
          = (Ok (VStr ("Hello, " +:+ name +:+ "!")),
             h ++ [Instance UserClass (user_dict (VStr name) (VStr email))]))
    as Hnew.
  { unfold_M. rewrite new_User_run.
    apply call_greet_run
      with (Instance UserClass (user_dict (VStr name) (VStr email)));
      [apply lookup_snoc | done | by apply user_dict_other
      | apply user_dict_name]. }
  split; [exact Hnew |]. exact Hnew.
Qed.

(** C4. For an [Admin] whose level is the integer [z], of any sign,
    [promote()] returns [None] without raising and leaves the level at
    [z + 1]; nothing bounds the level. *)
Theorem promote_adds_one (h : heap) (l : loc) (inst : instance) (z : Z)
    (Hl : h !! l = Some inst)
    (Hclass : inst_class inst = AdminClass)
    (Hmethod : inst_dict inst !! "promote" = None)
    (Hlevel : inst_dict inst !! "level" = Some (VInt z)) :
  ∃ h',
    call_method (VRef l) "promote" [] h = (Ok VNone, h')
    ∧ admin_level h l = Some z
    ∧ admin_level h' l = Some (z + 1).
Proof.
  eexists. split; [by apply call_promote_run |].
  assert (l < length h)%nat by by eapply lookup_lt_Some.
  unfold admin_level. rewrite Hl, list_lookup_insert_eq by done.
  destruct inst as [c d]; simpl in *; subst c.
  by rewrite Hlevel, lookup_insert_eq.
Qed.

Lemma promote_adds_one_witness :
  let h := (create_admin (VStr "A") (VStr "a@b.com") (Some (VInt (-3))) []).2 in
  ∃ h',
    call_method (VRef 0%nat) "promote" [] h = (Ok VNone, h')
    ∧ admin_level h 0%nat = Some (-3)
    ∧ admin_level h' 0%nat = Some (-3 + 1).
Proof.
  intros h.
  apply (promote_adds_one h 0%nat
           (Instance AdminClass
              (admin_dict (VStr "A") (VStr "a@b.com") (VInt (-3)))) (-3));
    reflexivity.
Defined.

(** C5. [get_greeting(u)] is the method call [u.greet()]; on a [User] and on
    an [Admin] alike that call runs [User.greet], which [Admin] inherits
    unchanged; so the greeting of a freshly created [Admin] is ["Hello, "],
    its name and ["!"], whatever the name, the email and the level. *)
Theorem get_greeting_is_greet (h : heap) (l : loc) (inst : instance)
    (Hl : h !! l = Some inst)
    (Hclass : inst_class inst = UserClass ∨ inst_class inst = AdminClass)
    (Hmethod : inst_dict inst !! "greet" = None) :
  (∀ user, get_greeting user h = call_method user "greet" [] h)
  ∧ get_greeting (VRef l) h = User.greet (VRef l) h
  ∧ class_lookup AdminClass "greet" = class_lookup UserClass "greet"
  ∧ (∀ (name email : string) (level : option value),
       (u ← create_admin (VStr name) (VStr email) level; get_greeting u) h
       = (Ok (VStr ("Hello, " +:+ name +:+ "!")),
          h ++ [Instance AdminClass
                  (admin_dict (VStr name) (VStr email)
                     (default (VInt 1) level))])).
Proof.
  split; [done |]. split; [| split; [done |]].
  - unfold get_greeting.
    rewrite (call_method_class _ _ _ _ User_greet _ Hl Hmethod); [done |].
    by destruct Hclass as [-> | ->].
  - intros name email level. unfold_M. rewrite create_admin_run.
    eapply call_greet_run;
      [apply lookup_snoc | done | by apply admin_dict_other
      | apply admin_dict_name].
Qed.

Lemma get_greeting_is_greet_witness :
  let h := (create_admin (VStr "A") (VStr "a@b.com") None []).2 in
  get_greeting (VRef 0%nat) h = User.greet (VRef 0%nat) h
  ∧ get_greeting (VRef 0%nat) h = (Ok (VStr "Hello, A!"), h).
Proof.
  intros h. split; [| reflexivity].
  apply (get_greeting_is_greet h 0%nat
           (Instance AdminClass
              (admin_dict (VStr "A") (VStr "a@b.com") (VInt 1))));
    [reflexivity | by right | reflexivity].
Defined.

(** C6. Constructing an [Admin] runs [User]'s construction on the name and
    the email and then stores the level as given, 1 when it is omitted; the
    instance has exactly these three attributes, and [create_admin] returns
    such an instance. In particular [create_admin("A", "a@b.com")] has
    level 1. *)
Theorem admin_construction (h : heap) (name email : value)
    (level : option value) :
  let lvl := default (VInt 1) level in
  let l := length h in
  let h' := h ++ [Instance AdminClass (admin_dict name email lvl)] in
  new AdminClass (name :: email :: option_list level) h = (Ok (VRef l), h')
  ∧ create_admin name email level h = (Ok (VRef l), h')
  ∧ (∀ self,
       Admin.__init__ self name email level
       = (User.__init__ self name email;; setattr self "level" lvl;;
          mret VNone))
  ∧ super_lookup AdminClass AdminClass "__init__" = Some (CFun User_init)
  ∧ admin_dict name email lvl = <["level" := lvl]> (user_dict name email)
  ∧ new UserClass [name; email] h
    = (Ok (VRef l), h ++ [Instance UserClass (user_dict name email)])
  ∧ getattr (VRef l) "name" h' = (Ok name, h')
  ∧ getattr (VRef l) "email" h' = (Ok email, h')
  ∧ getattr (VRef l) "level" h' = (Ok lvl, h')
  ∧ (u ← create_admin (VStr "A") (VStr "a@b.com") None; getattr u "level") h
    = (Ok (VInt 1),
       h ++ [Instance AdminClass
               (admin_dict (VStr "A") (VStr "a@b.com") (VInt 1))]).
Proof.
  intros lvl l h'.
  split; [apply new_Admin_run |]. split; [apply create_admin_run |].
  split; [done |]. split; [done |]. split; [done |].
  split; [apply new_User_run |].
  split; [eapply getattr_own; [apply lookup_snoc | apply admin_dict_name] |].
  split; [eapply getattr_own; [apply lookup_snoc | apply admin_dict_email] |].
  split; [eapply getattr_own; [apply lookup_snoc | apply admin_dict_level] |].
  unfold_M. rewrite create_admin_run.
  eapply getattr_own; [apply lookup_snoc | apply admin_dict_level].
Qed.

(** C9. [promote()] on an [Admin], in any state, changes at most the
    attribute [level] of that instance: every other attribute of it reads
    as before, [name], [email] and the class variable [role] among them, its
    class is the same, and every other instance of the heap is untouched. *)
Theorem promote_frame (h : heap) (l : loc) (inst : instance)
    (Hl : h !! l = Some inst)
    (Hclass : inst_class inst = AdminClass)
    (Hmethod : inst_dict inst !! "promote" = None) :
  let h' := (call_method (VRef l) "promote" [] h).2 in
  ∃ inst',
    h' !! l = Some inst'
    ∧ inst_class inst' = inst_class inst
    ∧ (∀ a, a ≠ "level" → inst_dict inst' !! a = inst_dict inst !! a)
    ∧ (∀ a, a ≠ "level" →
         (getattr (VRef l) a h').1 = (getattr (VRef l) a h).1)
    ∧ class_lookup (inst_class inst') "role" = Some (CVal (VStr "admin"))
    ∧ (∀ l', l' ≠ l → h' !! l' = h !! l')
    ∧ length h' = length h.
Proof.
  intros h'. subst h'.
  assert (l < length h)%nat as Hlt by by eapply lookup_lt_Some.
  rewrite (call_method_class _ _ _ _ Admin_promote _ Hl Hmethod)
    by (rewrite Hclass; apply class_lookup_Admin_promote).
  simpl. destruct (promote_effect (VRef l) h) as [-> | Heff].
  { exists inst. by rewrite Hclass. }
  destruct Heff as (l0 & inst0 & lv & z & [= <-] & Hl0 & _ & _ & ->).
  rewrite Hl in Hl0. injection Hl0 as <-.
  eexists. split; [by apply list_lookup_insert_eq |]. simpl.
  split; [done |].
  split; [by intros a Ha; rewrite lookup_insert_ne |].
  split.
  { intros a Ha. unfold getattr.
    rewrite Hl, list_lookup_insert_eq by done. simpl.
    rewrite lookup_insert_ne by done.
    destruct (inst_dict inst !! a); [done |].
    by destruct (class_lookup (inst_class inst) a) as [[]|]. }
  split; [by rewrite Hclass |].
  split; [by intros l' Hl'; rewrite list_lookup_insert_ne |].
  apply length_insert.
Qed.

Lemma promote_frame_witness :
  let h := run_ops [Op_create_user (VStr "U") (VStr "u@x.org");
                    Op_create_admin (VStr "A") (VStr "a@b.com")
                      (Some (VInt 7))] [] in
  let h' := (call_method (VRef 1%nat) "promote" [] h).2 in
  (getattr (VRef 1%nat) "level" h).1 = Ok (VInt 7)
  ∧ (getattr (VRef 1%nat) "level" h').1 = Ok (VInt 8)
  ∧ ∃ inst',
      h' !! 1%nat = Some inst'
      ∧ inst_class inst' = AdminClass
      ∧ (∀ a, a ≠ "level" →
           inst_dict inst' !! a
           = admin_dict (VStr "A") (VStr "a@b.com") (VInt 7) !! a)
      ∧ (∀ a, a ≠ "level" →
           (getattr (VRef 1%nat) a h').1 = (getattr (VRef 1%nat) a h).1)
      ∧ class_lookup (inst_class inst') "role" = Some (CVal (VStr "admin"))
      ∧ (∀ l', l' ≠ 1%nat → h' !! l' = h !! l')
      ∧ length h' = length h.
Proof.
  intros h h'. split; [reflexivity |]. split; [reflexivity |].
  apply (promote_frame h 1%nat
           (Instance AdminClass
              (admin_dict (VStr "A") (VStr "a@b.com") (VInt 7))));
    reflexivity.
Defined.

(** ** Sessions *)

Section sessions.
Implicit Types (h : heap) (l : loc) (inst : instance) (v : value) (o : op).

Lemma run_ops_snoc ops o h :
  run_ops (ops ++ [o]) h = (run_op o (run_ops ops h)).2.
Proof. unfold run_ops. by rewrite foldl_snoc. Qed.

Lemma admin_level_Some h l z :
  admin_level h l = Some z ↔
  ∃ inst, h !! l = Some inst ∧ inst_class inst = AdminClass
          ∧ inst_dict inst !! "level" = Some (VInt z).
Proof.
  unfold admin_level. split.
  - destruct (h !! l) as [[c d]|]; [| done].
    destruct c; try done.
    destruct (d !! "level") as [[]|] eqn:Hd; try done.
    intros [= ->]. by eexists.
  - intros ([c d] & -> & Hc & Hd). simpl in *. subst c. by rewrite Hd.
Qed.

Lemma admin_level_snoc h l inst :
  (l < length h)%nat → admin_level (h ++ [inst]) l = admin_level h l.
Proof. intros Hlt. unfold admin_level. by rewrite lookup_app_l. Qed.

(** On a plain heap a method call reaches the function of the class, or
    raises. *)
Lemma call_greet_heap v h :
  plain h → (call_method v "greet" [] h).2 = h.
Proof.
  intros Hp. destruct v as [| | | |l|]; try done.
  destruct (h !! l) as [inst|] eqn:Hl.
  - destruct (Hp l inst Hl) as [Hg _].
    destruct (inst_class inst) eqn:Hc.
    + rewrite (call_method_missing _ _ _ _ _ Hl Hg); [done |].
      by rewrite Hc.
    + rewrite (call_method_class _ _ _ _ User_greet _ Hl Hg)
        by by rewrite Hc.
      apply greet_heap.
    + rewrite (call_method_class _ _ _ _ User_greet _ Hl Hg)
        by by rewrite Hc.
      apply greet_heap.
  - unfold call_method, getattr. unfold_M. by rewrite Hl.
Qed.

Lemma call_promote_cases v h :
  plain h →
  (call_method v "promote" [] h).2 = h
  ∨ ∃ l inst,
      v = VRef l ∧ h !! l = Some inst ∧ inst_class inst = AdminClass
      ∧ call_method v "promote" [] h = Admin.promote v h.
Proof.
  intros Hp. destruct v as [| | | |l|]; try by left.
  destruct (h !! l) as [inst|] eqn:Hl.
  - destruct (Hp l inst Hl) as [_ Hm].
    destruct (inst_class inst) eqn:Hc.
    + left. rewrite (call_method_missing _ _ _ _ _ Hl Hm); [done |].
      by rewrite Hc.
    + left. rewrite (call_method_missing _ _ _ _ _ Hl Hm); [done |].
      by rewrite Hc.
    + right. exists l, inst. repeat split; try done.
      rewrite (call_method_class _ _ _ _ Admin_promote _ Hl Hm); [done |].
      by rewrite Hc.
  - left. unfold call_method, getattr. unfold_M. by rewrite Hl.
Qed.

Lemma call_promote_other v h l :
  plain h → v ≠ VRef l → (call_method v "promote" [] h).2 !! l = h !! l.
Proof.
  intros Hp Hv. destruct (call_promote_cases v h Hp) as [-> | Hc]; [done |].
  destruct Hc as (l' & inst & _ & _ & _ & ->). by apply promote_other.
Qed.

Lemma plain_snoc h inst :
  plain h → inst_dict inst !! "greet" = None →
  inst_dict inst !! "promote" = None → plain (h ++ [inst]).
Proof.
  intros Hp Hg Hm l inst' Hl.
  apply lookup_app_Some in Hl as [Hl | [_ Hl]]; [by eapply Hp |].
  apply list_lookup_singleton_Some in Hl as [_ <-]. done.
Qed.

Lemma plain_promote v h : plain h → plain (Admin.promote v h).2.
Proof.
  intros Hp. destruct (promote_effect v h) as [-> | Heff]; [done |].
  destruct Heff as (l & inst & lv & z & -> & Hl & _ & _ & ->).
  intros l' inst' Hl'.
  destruct (decide (l = l')) as [<- | Hne].
  - rewrite list_lookup_insert_eq in Hl' by by eapply lookup_lt_Some.
    injection Hl' as <-. simpl. rewrite !lookup_insert_ne by done.
    by eapply Hp.
  - rewrite list_lookup_insert_ne in Hl' by done. by eapply Hp.
Qed.

Lemma plain_run_op o h : plain h → plain (run_op o h).2.
Proof.
  intros Hp. destruct o; simpl.
  - rewrite new_User_run. apply plain_snoc; [done | ..];
      by apply user_dict_other.
  - rewrite new_Admin_run. apply plain_snoc; [done | ..];
      by apply admin_dict_other.
  - by rewrite call_greet_heap.
  - destruct (call_promote_cases self h Hp) as [-> | Hc]; [done |].
    destruct Hc as (l & inst & _ & _ & _ & ->). by apply plain_promote.
  - rewrite create_user_run. apply plain_snoc; [done | ..];
      by apply user_dict_other.
  - rewrite create_admin_run. apply plain_snoc; [done | ..];
      by apply admin_dict_other.
  - unfold get_greeting. by rewrite call_greet_heap.
  - done.
  - done.
Qed.

Lemma plain_run_ops ops h : plain h → plain (run_ops ops h).
Proof.
  intros Hp. induction ops as [|o ops IH] using rev_ind; [done |].
  rewrite run_ops_snoc. by apply plain_run_op.
Qed.

Lemma plain_nil : plain [].
Proof. by intros l inst Hl. Qed.

(** One operation and the level of the [Admin] at [l]: [l.promote()] adds
    one, every other operation leaves it. *)
Lemma run_op_level o h l z :
  plain h → admin_level h l = Some z →
  admin_level (run_op o h).2 l
  = Some (if decide (o = Op_promote (VRef l)) then z + 1 else z).
Proof.
  intros Hp Hz.
  pose proof Hz as (inst & Hl & Hc & Hd)%admin_level_Some.
  assert (l < length h)%nat as Hlt by by eapply lookup_lt_Some.
  destruct (Hp l inst Hl) as [_ Hm].
  case_decide as Ho.
  - subst o. simpl. rewrite (call_promote_run _ _ _ _ Hl Hc Hm Hd). simpl.
    apply admin_level_Some. eexists. split; [by apply list_lookup_insert_eq |].
    split; [done |]. simpl. apply lookup_insert_eq.
  - rewrite <- Hz. destruct o; simpl.
    + rewrite new_User_run. by apply admin_level_snoc.
    + rewrite new_Admin_run. by apply admin_level_snoc.
    + by rewrite call_greet_heap.
    + unfold admin_level. rewrite call_promote_other; [done .. |].
      congruence.
    + rewrite create_user_run. by apply admin_level_snoc.
    + rewrite create_admin_run. by apply admin_level_snoc.
    + unfold get_greeting. by rewrite call_greet_heap.
    + done.
    + done.
Qed.

Lemma run_ops_level ops h l z :
  plain h → admin_level h l = Some z →
  ∃ z', admin_level (run_ops ops h) l = Some z' ∧ z ≤ z'.
Proof.
  intros Hp Hz. induction ops as [|o ops IH] using rev_ind.
  - exists z. split; [done | lia].
  - destruct IH as (z1 & Hz1 & Hle). rewrite run_ops_snoc.
    rewrite (run_op_level _ _ _ z1) by (try apply plain_run_ops; done).
    eexists. split; [done |]. case_decide; lia.
Qed.

Lemma run_ops_promote_n (n : nat) h l z :
  plain h → admin_level h l = Some z →
  admin_level (run_ops (replicate n (Op_promote (VRef l))) h) l
  = Some (z + Z.of_nat n).
Proof.
  intros Hp. revert h z Hp. induction n as [|n IH]; intros h z Hp Hz.
  - simpl. rewrite Hz. f_equal. lia.
  - simpl. rewrite (IH _ (z + 1)).
    + f_equal. lia.
    + by apply (plain_run_op (Op_promote (VRef l))).
    + change (admin_level (run_op (Op_promote (VRef l)) h).2 l
              = Some (z + 1)).
      rewrite (run_op_level _ _ _ z) by done. by rewrite decide_True.
Qed.

End sessions.

(** C7. In every state that a session reaches from the empty heap, for
    every [Admin] in it whose level is an integer: one more operation leaves
    the level as it is, except [promote()] on that [Admin], which adds one;
    so after any further session the level is at least what it was; and it
    passes every bound after enough calls of [promote()]. *)
Theorem level_never_decreases (ops : list op) (l : loc) (z : Z)
    (Hz : admin_level (run_ops ops []) l = Some z) :
  let h := run_ops ops [] in
  (∀ o, admin_level (run_op o h).2 l
        = Some (if decide (o = Op_promote (VRef l)) then z + 1 else z))
  ∧ (∀ ops', ∃ z', admin_level (run_ops ops' h) l = Some z' ∧ z ≤ z')
  ∧ (∀ bound, ∃ ops' z',
       admin_level (run_ops ops' h) l = Some z' ∧ bound < z').
Proof.
  intros h.
  assert (plain h) as Hp by apply plain_run_ops, plain_nil.
  split; [by intros o; apply run_op_level |].
  split; [by intros ops'; apply run_ops_level |].
  intros bound.
  exists (replicate (Z.to_nat (bound - z + 1)) (Op_promote (VRef l))).
  eexists. split; [by apply run_ops_promote_n |]. lia.
Qed.

Lemma level_never_decreases_witness :
  let ops := [Op_create_user (VStr "U") (VStr "u@x.org");
              Op_create_admin (VStr "A") (VStr "a@b.com") None;
              Op_promote (VRef 1%nat)] in
  let h := run_ops ops [] in
  admin_level h 1%nat = Some 2
  ∧ (∀ o, admin_level (run_op o h).2 1%nat
          = Some (if decide (o = Op_promote (VRef 1%nat)) then 2 + 1 else 2))
  ∧ (∀ ops', ∃ z',
       admin_level (run_ops ops' h) 1%nat = Some z' ∧ 2 ≤ z')
  ∧ (∀ bound, ∃ ops' z',
       admin_level (run_ops ops' h) 1%nat = Some z' ∧ bound < z').
Proof.
  intros ops h. split; [reflexivity |].
  apply (level_never_decreases ops 1%nat 2). reflexivity.
Defined.

(** * Further properties of the code *)

(** ** utils.py: more on [validate_email] *)

Lemma str_contains_char_app (a b : string) (c : ascii) :
  str_contains (a +:+ b) (String c EmptyString)
  = str_contains a (String c EmptyString)
    || str_contains b (String c EmptyString).
Proof.
  induction a as [|x a IH].
  - change (EmptyString +:+ b) with b. done.
  - change (String x a +:+ b) with (String x (a +:+ b)).
    cbn [str_contains starts_with]. rewrite IH.
    by rewrite orb_assoc.
Qed.

Lemma has_substring_extend (s sub rest : string) :
  has_substring s sub → has_substring (s +:+ rest) sub.
Proof.
  intros (a & b & ->). exists a, (b +:+ rest).
  clear. induction a as [|x a IH]; simpl.
  - induction sub as [|y sub IHs]; [done |].
    change ((String y sub +:+ b) +:+ rest
            = String y (sub +:+ b +:+ rest)).
    change (String y ((sub +:+ b) +:+ rest) = String y (sub +:+ b +:+ rest)).
    by f_equal.
  - change (String x ((a +:+ sub +:+ b) +:+ rest)
            = String x (a +:+ sub +:+ b +:+ rest)).
    by f_equal.
Qed.

(** X1. The result on a concatenation: [a + b] is accepted exactly when
    ["@"] occurs in [a] or in [b] and ["."] occurs in [a] or in [b]; so the
    two halves may be swapped. *)
Theorem validate_email_concat (a b : string) :
  (validate_email (VStr (a +:+ b)) = Ok (VBool true) ↔
     (has_substring a "@" ∨ has_substring b "@")
     ∧ (has_substring a "." ∨ has_substring b "."))
  ∧ validate_email (VStr (a +:+ b)) = validate_email (VStr (b +:+ a)).
Proof.
  rewrite !validate_email_str, !str_contains_char_app. split.
  - split.
    + intros [= H]. apply andb_true_iff in H as [H1 H2].
      apply orb_true_iff in H1, H2.
      by rewrite <- !str_contains_spec.
    + rewrite <- !str_contains_spec. intros [H1 H2].
      apply orb_true_iff in H1, H2.
      do 2 f_equal. by apply andb_true_iff.
  - do 2 f_equal. by rewrite (orb_comm (str_contains a "@")),
      (orb_comm (str_contains a ".")).
Qed.

Lemma is_str_cases (v : value) : is_str v ∨ ¬ is_str v.
Proof.
  destruct v as [| | |s| |]; try (right; by intros [s ?]).
  left. by exists s.
Qed.

Lemma validate_email_not_str (email : value) :
  ¬ is_str email → validate_email email = Raise TypeError.
Proof.
  intros Hs. destruct email as [| | |s| |]; try reflexivity.
  destruct Hs. by exists s.
Qed.

(** X2. [validate_email] raises [TypeError] exactly on the arguments that are
    not strings ([None], a number, an instance, a bound method); on a string
    it returns a boolean. *)
Theorem validate_email_type_error (email : value) :
  (validate_email email = Raise TypeError ↔ ¬ is_str email)
  ∧ ((∃ b, validate_email email = Ok (VBool b)) ↔ is_str email).
Proof.
  destruct (is_str_cases email) as [[s ->] | Hs].
  - rewrite validate_email_str. split; split.
    + done.
    + intros Hs. destruct Hs. by exists s.
    + intros _. by exists s.
    + intros _. by eexists.
  - rewrite (validate_email_not_str email Hs). split; split.
    + done.
    + done.
    + by intros [b ?].
    + done.
Qed.

(** ** utils.py: more on [truncate_name] *)

Lemma str_take_all (n : nat) (s : string) :
  (String.length s ≤ n)%nat → str_take n s = s.
Proof.
  revert n. induction s as [|c s IH]; intros [|n] Hn; simpl in *;
    try done; try lia.
  f_equal. apply IH. lia.
Qed.

Lemma str_take_take (n m : nat) (s : string) :
  str_take n (str_take m s) = str_take (Nat.min n m) s.
Proof.
  revert n m. induction s as [|c s IH]; intros [|n] [|m]; simpl; try done.
  by rewrite IH.
Qed.

Lemma truncate_name_take (name : string) (k : Z) :
  0 ≤ k →
  truncate_name (VStr name) (Some (VInt k))
  = Ok (VStr (str_take (Z.to_nat k) name)).
Proof.
  intros Hk. destruct (Z.lt_ge_cases k (len name)) as [Hlt | Hge].
  - by apply truncate_name_long.
  - rewrite truncate_name_short by done.
    rewrite str_take_all; [done |]. unfold len in Hge. lia.
Qed.

Lemma truncate_name_slice (name : string) (k : Z) :
  truncate_name (VStr name) (Some (VInt k))
  = Ok (VStr (str_take (Z.to_nat (slice_stop (len name) k)) name)).
Proof.
  rewrite truncate_name_str. destruct (Z.ltb_spec k (len name)); [done |].
  rewrite str_take_all; [done |]. unfold slice_stop, len in *.
  destruct (Z.ltb_spec k 0); lia.
Qed.

Lemma truncate_name_is_prefix (name : string) (k : Z) :
  ∃ r rest,
    truncate_name (VStr name) (Some (VInt k)) = Ok (VStr r)
    ∧ name = r +:+ rest.
Proof.
  rewrite truncate_name_slice.
  destruct (str_take_prefix (Z.to_nat (slice_stop (len name) k)) name)
    as [rest Hrest].
  by eexists _, rest.
Qed.

Lemma truncate_name_index (name : string) (v : value) (k : Z) :
  as_int v = Some k →
  truncate_name (VStr name) (Some v)
  = truncate_name (VStr name) (Some (VInt k)).
Proof. destruct v as [|b| | | |]; try done; by intros [= <-]. Qed.

(** X3. For every integer [max_length], of either sign, the result is a
    prefix of the name: of [min(len(name), max_length)] characters when
    [max_length] is not negative, and of [max(len(name) + max_length, 0)]
    characters when it is negative (the slice then drops characters from the
    end). *)
Theorem truncate_name_any_bound (name : string) (max_length : Z) :
  ∃ r rest,
    truncate_name (VStr name) (Some (VInt max_length)) = Ok (VStr r)
    ∧ name = r +:+ rest
    ∧ len r = if max_length <? 0
              then Z.max (len name + max_length) 0
              else Z.min (len name) max_length.
Proof.
  rewrite truncate_name_slice.
  destruct (str_take_prefix
              (Z.to_nat (slice_stop (len name) max_length)) name)
    as [rest Hrest].
  eexists _, rest. split; [done |]. split; [done |].
  unfold len. rewrite str_take_length. unfold slice_stop, len.
  destruct (Z.ltb_spec max_length 0); lia.
Qed.

(** X4. Two truncations with non-negative bounds are one truncation with the
    smaller bound. *)
Theorem truncate_name_twice (name : string) (m n : Z)
    (Hm : 0 ≤ m) (Hn : 0 ≤ n) :
  ∃ r,
    truncate_name (VStr name) (Some (VInt m)) = Ok (VStr r)
    ∧ truncate_name (VStr r) (Some (VInt n))
      = truncate_name (VStr name) (Some (VInt (Z.min m n))).
Proof.
  eexists. split; [by apply truncate_name_take |].
  rewrite !truncate_name_take by lia. rewrite str_take_take.
  do 3 f_equal. lia.
Qed.

Lemma truncate_name_twice_witness :
  0 ≤ 7 ∧ 0 ≤ 3
  ∧ ∃ r,
      truncate_name (VStr "abcdefghij") (Some (VInt 7)) = Ok (VStr r)
      ∧ truncate_name (VStr r) (Some (VInt 3))
        = truncate_name (VStr "abcdefghij") (Some (VInt (Z.min 7 3))).
Proof.
  split; [lia |]. split; [lia |].
  apply (truncate_name_twice "abcdefghij" 7 3); lia.
Defined.

(** X5. [truncate_name] raises [TypeError] exactly when the name is not a
    string or the bound that is passed is not an integer (a [bool] counts as
    one; [None] passed as the bound does not); in every other case it
    returns a string. *)
Theorem truncate_name_type_error (name : value) (max_length : option value) :
  let typed := is_str name ∧ from_option is_index True max_length in
  (truncate_name name max_length = Raise TypeError ↔ ¬ typed)
  ∧ ((∃ r, truncate_name name max_length = Ok (VStr r)) ↔ typed).
Proof.
  intros typed.
  assert (typed ∧ (∃ r, truncate_name name max_length = Ok (VStr r))
          ∨ ¬ typed ∧ truncate_name name max_length = Raise TypeError)
    as [[Ht [r Hr]] | [Ht Hr]].
  { subst typed. destruct (is_str_cases name) as [[s ->] | Hs].
    - destruct max_length as [v|]; simpl.
      + destruct (as_int v) as [k|] eqn:Hv.
        * left. split; [split; [by eexists | by eexists] |].
          rewrite (truncate_name_index _ _ _ Hv), truncate_name_slice.
          by eexists.
        * right. split; [by intros [_ [k Hk]]; unfold is_index in *;
                          congruence |].
          by destruct v.
      + left. split; [split; [by eexists | done] |].
        rewrite truncate_name_default, truncate_name_slice. by eexists.
    - right. split; [by intros [Hn _] |].
      destruct name as [| | |s| |]; try done. destruct Hs. by exists s. }
  - rewrite Hr. split; split; try done. by eexists.
  - rewrite Hr. split; split; try done. by intros [r ?].
Qed.

(** X6. Truncation never turns a rejected address into an accepted one: if
    [validate_email] accepts the truncated string, for any integer bound,
    it accepts the whole string. *)
Theorem validate_email_of_truncated (email : string) (max_length : Z)
    (Hvalid : truncate_name (VStr email) (Some (VInt max_length))
              ≫= validate_email = Ok (VBool true)) :
  validate_email (VStr email) = Ok (VBool true).
Proof.
  destruct (truncate_name_is_prefix email max_length)
    as (r & rest & Hr & Hemail).
  rewrite Hr in Hvalid. simpl in Hvalid.
  rewrite validate_email_str in Hvalid. injection Hvalid as Hvalid.
  apply andb_true_iff in Hvalid as [Hat Hdot].
  apply str_contains_spec in Hat, Hdot.
  rewrite validate_email_str. do 2 f_equal. rewrite Hemail.
  apply andb_true_iff.
  split; apply str_contains_spec; by apply has_substring_extend.
Qed.

Lemma validate_email_of_truncated_witness :
  (truncate_name (VStr "a@b.com") (Some (VInt 6)) ≫= validate_email
   = Ok (VBool true))
  ∧ validate_email (VStr "a@b.com") = Ok (VBool true).
Proof.
  split; [reflexivity |].
  apply (validate_email_of_truncated "a@b.com" 6). reflexivity.
Defined.

(** ** models.py and service.py: construction *)

(** X7. [create_user] validates nothing and stores its arguments as they
    are: for arguments of any kind it returns a reference that no earlier
    object has, to a [User] whose [name] and [email] read back as given;
    that object has no [level], no [role] and no [promote]. *)
Theorem create_user_stores_verbatim (h : heap) (name email : value) :
  let l := length h in
  let h' := h ++ [Instance UserClass (user_dict name email)] in
  create_user name email h = (Ok (VRef l), h')
  ∧ h !! l = None
  ∧ getattr (VRef l) "name" h' = (Ok name, h')
  ∧ getattr (VRef l) "email" h' = (Ok email, h')
  ∧ getattr (VRef l) "level" h' = (Raise (AttributeError "level"), h')
  ∧ getattr (VRef l) "role" h' = (Raise (AttributeError "role"), h')
  ∧ call_method (VRef l) "promote" [] h'
    = (Raise (AttributeError "promote"), h').
Proof.
  intros l h'.
  assert (h' !! l = Some (Instance UserClass (user_dict name email)))
    as Hl by apply lookup_snoc.
  split; [apply create_user_run |].
  split; [by apply lookup_ge_None_2 |].
  split; [by rewrite (getattr_own _ _ _ _ _ Hl (user_dict_name _ _)) |].
  split; [by rewrite (getattr_own _ _ _ _ _ Hl (user_dict_email _ _)) |].
  split; [by rewrite (getattr_class _ _ _ "level" Hl)
            by by apply user_dict_other |].
  split; [by rewrite (getattr_class _ _ _ "role" Hl)
            by by apply user_dict_other |].
  apply (call_method_missing _ _ _ _ _ Hl); [by apply user_dict_other | done].
Qed.

(** ** Sessions: what every reachable state satisfies *)

Section reachable.
Implicit Types (h : heap) (l : loc) (inst : instance) (v : value) (o : op).

Lemma shaped_plain h : shaped h → plain h.
Proof.
  intros Hh l inst Hl. specialize (Hh l inst Hl).
  unfold shaped_instance in Hh. destruct (inst_class inst); [done | ..].
  - destruct Hh as (name & email & ->). split; by apply user_dict_other.
  - destruct Hh as (name & email & level & ->).
    split; by apply admin_dict_other.
Qed.

Lemma shaped_snoc h inst :
  shaped h → shaped_instance inst → shaped (h ++ [inst]).
Proof.
  intros Hh Hi l inst' Hl.
  apply lookup_app_Some in Hl as [Hl | [_ Hl]]; [by eapply Hh |].
  by apply list_lookup_singleton_Some in Hl as [_ <-].
Qed.

Lemma shaped_user name email :
  shaped_instance (Instance UserClass (user_dict name email)).
Proof. by exists name, email. Qed.

Lemma shaped_admin name email level :
  shaped_instance (Instance AdminClass (admin_dict name email level)).
Proof. by exists name, email, level. Qed.

Lemma shaped_promote v h : shaped h → shaped (Admin.promote v h).2.
Proof.
  intros Hh. destruct (promote_effect v h) as [-> | Heff]; [done |].
  destruct Heff as (l & inst & lv & z & -> & Hl & Hlv & _ & ->).
  intros l' inst' Hl'.
  apply list_lookup_insert_Some in Hl' as [(<- & <- & _) | [_ Hl']];
    [| by eapply Hh].
  pose proof (Hh l inst Hl) as Hi. unfold shaped_instance in *. simpl.
  destruct (inst_class inst); [done | ..].
  - destruct Hi as (name & email & Hd). rewrite Hd in Hlv.
    by rewrite user_dict_other in Hlv.
  - destruct Hi as (name & email & level & ->).
    exists name, email, (VInt (z + 1)). apply admin_dict_promoted.
Qed.

Lemma shaped_run_op o h : shaped h → shaped (run_op o h).2.
Proof.
  intros Hh. pose proof (shaped_plain h Hh) as Hp. destruct o; simpl.
  - rewrite new_User_run. apply shaped_snoc; [done | apply shaped_user].
  - rewrite new_Admin_run. apply shaped_snoc; [done | apply shaped_admin].
  - by rewrite call_greet_heap.
  - destruct (call_promote_cases self h Hp) as [-> | Hc]; [done |].
    destruct Hc as (l & inst & _ & _ & _ & ->). by apply shaped_promote.
  - rewrite create_user_run. apply shaped_snoc; [done | apply shaped_user].
  - rewrite create_admin_run.
    apply shaped_snoc; [done | apply shaped_admin].
  - unfold get_greeting. by rewrite call_greet_heap.
  - done.
  - done.
Qed.

Lemma shaped_run_ops ops h : shaped h → shaped (run_ops ops h).
Proof.
  intros Hh. induction ops as [|o ops IH] using rev_ind; [done |].
  rewrite run_ops_snoc. by apply shaped_run_op.
Qed.

Lemma shaped_nil : shaped [].
Proof. by intros l inst Hl. Qed.

Lemma promote_length v h : length (Admin.promote v h).2 = length h.
Proof.
  destruct (promote_effect v h) as [-> | Heff]; [done |].
  destruct Heff as (l & inst & lv & z & _ & _ & _ & _ & ->).
  apply length_insert.
Qed.

Lemma run_op_length o h :
  plain h →
  length (run_op o h).2 = (length h + if creates o then 1 else 0)%nat.
Proof.
  intros Hp. destruct o; simpl.
  - rewrite new_User_run. simpl. by rewrite length_app.
  - rewrite new_Admin_run. simpl. by rewrite length_app.
  - rewrite call_greet_heap by done. lia.
  - destruct (call_promote_cases self h Hp) as [-> | Hc]; [lia |].
    destruct Hc as (l & inst & _ & _ & _ & ->). rewrite promote_length. lia.
  - rewrite create_user_run. simpl. by rewrite length_app.
  - rewrite create_admin_run. simpl. by rewrite length_app.
  - unfold get_greeting. rewrite call_greet_heap by done. lia.
  - simpl. lia.
  - simpl. lia.
Qed.

(** One operation and an instance that exists: it stays where it is, with
    its class and with every attribute but [level]. *)
Lemma promote_keeps v h l inst :
  h !! l = Some inst →
  ∃ inst', (Admin.promote v h).2 !! l = Some inst'
    ∧ inst_class inst' = inst_class inst
    ∧ ∀ a, a ≠ "level" → inst_dict inst' !! a = inst_dict inst !! a.
Proof.
  intros Hl. destruct (promote_effect v h) as [-> | Heff]; [by exists inst |].
  destruct Heff as (l0 & inst0 & lv & z & _ & Hl0 & _ & _ & ->).
  destruct (decide (l0 = l)) as [-> | Hne].
  - rewrite Hl in Hl0. injection Hl0 as <-.
    eexists. split; [apply list_lookup_insert_eq; by eapply lookup_lt_Some |].
    split; [done |]. intros a Ha. simpl. by rewrite lookup_insert_ne.
  - exists inst. by rewrite list_lookup_insert_ne.
Qed.

Lemma run_op_keeps o h l inst :
  plain h → h !! l = Some inst →
  ∃ inst', (run_op o h).2 !! l = Some inst'
    ∧ inst_class inst' = inst_class inst
    ∧ ∀ a, a ≠ "level" → inst_dict inst' !! a = inst_dict inst !! a.
Proof.
  intros Hp Hl.
  assert (∀ x, (h ++ [x]) !! l = Some inst) as Hsnoc.
  { intros x. rewrite lookup_app_l; [done | by eapply lookup_lt_Some]. }
  destruct o; simpl.
  - rewrite new_User_run. exists inst. simpl. by rewrite Hsnoc.
  - rewrite new_Admin_run. exists inst. simpl. by rewrite Hsnoc.
  - rewrite call_greet_heap by done. by exists inst.
  - destruct (call_promote_cases self h Hp) as [-> | Hc]; [by exists inst |].
    destruct Hc as (l0 & inst0 & _ & _ & _ & ->). by apply promote_keeps.
  - rewrite create_user_run. exists inst. simpl. by rewrite Hsnoc.
  - rewrite create_admin_run. exists inst. simpl. by rewrite Hsnoc.
  - unfold get_greeting. rewrite call_greet_heap by done. by exists inst.
  - by exists inst.
  - by exists inst.
Qed.

Lemma run_ops_keeps ops h l inst :
  plain h → h !! l = Some inst →
  ∃ inst', run_ops ops h !! l = Some inst'
    ∧ inst_class inst' = inst_class inst
    ∧ ∀ a, a ≠ "level" → inst_dict inst' !! a = inst_dict inst !! a.
Proof.
  intros Hp Hl. induction ops as [|o ops IH] using rev_ind.
  - by exists inst.
  - destruct IH as (inst1 & Hl1 & Hc1 & Hd1). rewrite run_ops_snoc.
    destruct (run_op_keeps o _ l inst1 (plain_run_ops ops h Hp) Hl1)
      as (inst2 & Hl2 & Hc2 & Hd2).
    exists inst2. split; [done |]. split; [congruence |].
    intros a Ha. by rewrite Hd2, Hd1.
Qed.

End reachable.

Lemma session_shaped (ops : list op) : shaped (run_ops ops []).
Proof. apply shaped_run_ops, shaped_nil. Qed.

(** X8. Whatever the operations of a session and their arguments, every
    object of the heap is a [User] with exactly the attributes [name] and
    [email], or an [Admin] with exactly [name], [email] and [level]; and
    the heap holds one object for each constructing operation that ran:
    nothing else creates an object and nothing removes one. *)
Theorem session_shape (ops : list op) :
  shaped (run_ops ops [])
  ∧ length (run_ops ops []) = length (List.filter creates ops).
Proof.
  split; [apply session_shaped |].
  induction ops as [|o ops IH] using rev_ind; [done |].
  rewrite run_ops_snoc, run_op_length by apply plain_run_ops, plain_nil.
  rewrite List.filter_app, length_app, IH. simpl.
  by destruct (creates o).
Qed.

(** X9. In every state of a session a [User] is not an [Admin]:
    [promote()] on it raises [AttributeError] and changes nothing, and it
    has neither [level] nor [role]. *)
Theorem user_has_no_admin_feature (ops : list op) (l : loc) (inst : instance)
    (Hl : run_ops ops [] !! l = Some inst)
    (Hclass : inst_class inst = UserClass) :
  let h := run_ops ops [] in
  call_method (VRef l) "promote" [] h = (Raise (AttributeError "promote"), h)
  ∧ getattr (VRef l) "level" h = (Raise (AttributeError "level"), h)
  ∧ getattr (VRef l) "role" h = (Raise (AttributeError "role"), h).
Proof.
  intros h. subst h.
  pose proof (session_shaped ops l inst Hl) as Hi.
  unfold shaped_instance in Hi. rewrite Hclass in Hi.
  destruct Hi as (name & email & Hd).
  split; [| split].
  - apply (call_method_missing _ _ _ _ _ Hl);
      [rewrite Hd; by apply user_dict_other | by rewrite Hclass].
  - rewrite (getattr_class _ _ _ "level" Hl), Hclass;
      [done | rewrite Hd; by apply user_dict_other].
  - rewrite (getattr_class _ _ _ "role" Hl), Hclass;
      [done | rewrite Hd; by apply user_dict_other].
Qed.

Lemma user_has_no_admin_feature_witness :
  let ops := [Op_create_user (VStr "U") (VStr "not an address");
              Op_create_admin (VStr "A") (VStr "a@b.com") None] in
  let h := run_ops ops [] in
  (∃ inst, h !! 0%nat = Some inst ∧ inst_class inst = UserClass)
  ∧ call_method (VRef 0%nat) "promote" [] h
    = (Raise (AttributeError "promote"), h)
  ∧ getattr (VRef 0%nat) "level" h = (Raise (AttributeError "level"), h)
  ∧ getattr (VRef 0%nat) "role" h = (Raise (AttributeError "role"), h).
Proof.
  intros ops h. split; [by eexists |].
  apply (user_has_no_admin_feature ops 0%nat
           (Instance UserClass
              (user_dict (VStr "U") (VStr "not an address"))));
    reflexivity.
Defined.

(** X10. In every state of a session the [role] of an [Admin] reads
    ["admin"]: it comes from the class, and no operation gives an instance
    a [role] of its own. *)
Theorem admin_role_is_admin (ops : list op) (l : loc) (inst : instance)
    (Hl : run_ops ops [] !! l = Some inst)
    (Hclass : inst_class inst = AdminClass) :
  let h := run_ops ops [] in
  getattr (VRef l) "role" h = (Ok (VStr "admin"), h)
  ∧ inst_dict inst !! "role" = None.
Proof.
  intros h. subst h.
  pose proof (session_shaped ops l inst Hl) as Hi.
  unfold shaped_instance in Hi. rewrite Hclass in Hi.
  destruct Hi as (name & email & level & Hd).
  assert (inst_dict inst !! "role" = None) as Hrole
    by (rewrite Hd; by apply admin_dict_other).
  split; [| done].
  by rewrite (getattr_class _ _ _ "role" Hl Hrole), Hclass.
Qed.

Lemma admin_role_is_admin_witness :
  let ops := [Op_create_admin (VStr "A") (VStr "a@b.com") None;
              Op_promote (VRef 0%nat);
              Op_get_greeting (VRef 0%nat)] in
  let h := run_ops ops [] in
  (∃ inst, h !! 0%nat = Some inst ∧ inst_class inst = AdminClass)
  ∧ getattr (VRef 0%nat) "role" h = (Ok (VStr "admin"), h).
Proof.
  intros ops h. split; [by eexists |].
  apply (admin_role_is_admin ops 0%nat
           (Instance AdminClass
              (admin_dict (VStr "A") (VStr "a@b.com") (VInt 2))));
    reflexivity.
Defined.

(** X11. No operation of a session changes what an object is or what it is
    called: once an object exists, after any further operations it is at
    the same place, of the same class, and every attribute of it other than
    [level] ([name] and [email] in particular) holds the value it held. *)
Theorem name_and_email_never_change (ops ops' : list op) (l : loc)
    (inst : instance)
    (Hl : run_ops ops [] !! l = Some inst) :
  ∃ inst',
    run_ops (ops ++ ops') [] !! l = Some inst'
    ∧ inst_class inst' = inst_class inst
    ∧ inst_dict inst' !! "name" = inst_dict inst !! "name"
    ∧ inst_dict inst' !! "email" = inst_dict inst !! "email"
    ∧ ∀ a, a ≠ "level" → inst_dict inst' !! a = inst_dict inst !! a.
Proof.
  unfold run_ops. rewrite foldl_app. fold (run_ops ops []).
  fold (run_ops ops' (run_ops ops [])).
  destruct (run_ops_keeps ops' (run_ops ops []) l inst)
    as (inst' & H1 & H2 & H3);
    [apply plain_run_ops, plain_nil | done |].
  exists inst'. repeat split; try done; by apply H3.
Qed.

Lemma name_and_email_never_change_witness :
  let ops := [Op_create_admin (VStr "A") (VStr "a@b.com") None] in
  let ops' := [Op_promote (VRef 0%nat);
               Op_create_user (VStr "U") (VStr "u@x.org");
               Op_promote (VRef 0%nat)] in
  let inst := Instance AdminClass
                (admin_dict (VStr "A") (VStr "a@b.com") (VInt 1)) in
  run_ops ops [] !! 0%nat = Some inst
  ∧ ∃ inst',
      run_ops (ops ++ ops') [] !! 0%nat = Some inst'
      ∧ inst_class inst' = inst_class inst
      ∧ inst_dict inst' !! "name" = inst_dict inst !! "name"
      ∧ inst_dict inst' !! "email" = inst_dict inst !! "email"
      ∧ ∀ a, a ≠ "level" → inst_dict inst' !! a = inst_dict inst !! a.
Proof.
  intros ops ops' inst. split; [reflexivity |].
  apply (name_and_email_never_change ops ops' 0%nat inst). reflexivity.
Defined.

(** X12. The greeting of an object is the same all along a session: if its
    name is the string [n] at some point, [get_greeting] on it returns
    ["Hello, n!"] after any further operations, and changes nothing. *)
Theorem greeting_is_stable (ops ops' : list op) (l : loc) (inst : instance)
    (n : string)
    (Hl : run_ops ops [] !! l = Some inst)
    (Hname : inst_dict inst !! "name" = Some (VStr n)) :
  let h' := run_ops (ops ++ ops') [] in
  get_greeting (VRef l) h' = (Ok (VStr ("Hello, " +:+ n +:+ "!")), h').
Proof.
  intros h'. subst h'.
  pose proof (session_shaped (ops ++ ops')) as Hshaped.
  pose proof (shaped_plain _ Hshaped) as Hplain.
  revert Hshaped Hplain.
  unfold run_ops. rewrite foldl_app. fold (run_ops ops []).
  fold (run_ops ops' (run_ops ops [])). intros Hshaped Hplain.
  destruct (run_ops_keeps ops' (run_ops ops []) l inst)
    as (inst' & Hl' & _ & Hd);
    [apply plain_run_ops, plain_nil | done |].
  destruct (Hplain l inst' Hl') as [Hg _].
  apply call_greet_run with inst'; [done | | done |].
  - pose proof (Hshaped l inst' Hl') as Hi. unfold shaped_instance in Hi.
    by destruct (inst_class inst').
  - by rewrite Hd.
Qed.

Lemma greeting_is_stable_witness :
  let ops := [Op_create_admin (VStr "A") (VStr "a@b.com") None] in
  let ops' := [Op_promote (VRef 0%nat);
               Op_create_user (VStr "U") (VStr "u@x.org")] in
  let inst := Instance AdminClass
                (admin_dict (VStr "A") (VStr "a@b.com") (VInt 1)) in
  let h' := run_ops (ops ++ ops') [] in
  run_ops ops [] !! 0%nat = Some inst
  ∧ inst_dict inst !! "name" = Some (VStr "A")
  ∧ get_greeting (VRef 0%nat) h' = (Ok (VStr "Hello, A!"), h').
Proof.
  intros ops ops' inst h'. split; [reflexivity |]. split; [reflexivity |].
  apply (greeting_is_stable ops ops' 0%nat inst "A"); reflexivity.
Defined.

(** ** models.py: more on [promote] and [greet] *)

Lemma promote_run_any (h : heap) (l : loc) (inst : instance) (lv : value) :
  h !! l = Some inst → inst_dict inst !! "level" = Some lv →
  Admin.promote (VRef l) h
  = match as_int lv with
    | Some z =>
        (Ok VNone,
         <[l := Instance (inst_class inst)
                  (<["level" := VInt (z + 1)]> (inst_dict inst))]> h)
    | None => (Raise TypeError, h)
    end.
Proof.
  intros Hl Hd. unfold Admin.promote. unfold_M.
  rewrite (getattr_own _ _ _ _ _ Hl Hd).
  destruct lv as [|b|z|s|l'|f l']; simpl; by rewrite ?Hl.
Qed.

Lemma call_promote_any (h : heap) (l : loc) (inst : instance) (lv : value) :
  h !! l = Some inst → inst_class inst = AdminClass →
  inst_dict inst !! "promote" = None →
  inst_dict inst !! "level" = Some lv →
  call_method (VRef l) "promote" [] h
  = match as_int lv with
    | Some z =>
        (Ok VNone,
         <[l := Instance AdminClass
                  (<["level" := VInt (z + 1)]> (inst_dict inst))]> h)
    | None => (Raise TypeError, h)
    end.
Proof.
  intros Hl Hclass Hmethod Hlevel.
  rewrite (call_method_class _ _ _ _ Admin_promote _ Hl Hmethod)
    by (rewrite Hclass; apply class_lookup_Admin_promote).
  simpl. rewrite (promote_run_any _ _ _ _ Hl Hlevel). by rewrite Hclass.
Qed.

(** X13. For a level among the values of the model ([None], a [bool], an
    [int], a [str], an instance, a bound method): [create_admin] stores it
    as it is, without a check, and [promote()] on the new [Admin] depends on
    its kind. For an [int], or a [bool] counted as 0 or 1, it returns [None]
    and the level becomes that integer plus one; for any other of these
    values it raises [TypeError] and leaves the [Admin] as it was. *)
Theorem promote_by_kind_of_level (h : heap) (name email lv : value) :
  let l := length h in
  let h1 := h ++ [Instance AdminClass (admin_dict name email lv)] in
  create_admin name email (Some lv) h = (Ok (VRef l), h1)
  ∧ getattr (VRef l) "level" h1 = (Ok lv, h1)
  ∧ call_method (VRef l) "promote" [] h1
    = match as_int lv with
      | Some z =>
          (Ok VNone,
           h ++ [Instance AdminClass (admin_dict name email (VInt (z + 1)))])
      | None => (Raise TypeError, h1)
      end.
Proof.
  intros l h1.
  assert (h1 !! l = Some (Instance AdminClass (admin_dict name email lv)))
    as Hl by apply lookup_snoc.
  split; [apply (create_admin_run h name email (Some lv)) |].
  split; [by apply (getattr_own _ _ _ _ _ Hl), admin_dict_level |].
  rewrite (call_promote_any _ _ _ lv Hl);
    [| done | by apply admin_dict_other | apply admin_dict_level].
  destruct (as_int lv) as [z|]; [| done]. simpl.
  subst h1 l. by rewrite insert_snoc, admin_dict_promoted.
Qed.

(** X14. Calling [promote()] [n] times on an [Admin] of a session whose
    level is the integer [z] leaves its level at [z + n]. *)
Theorem promote_n_times (ops : list op) (l : loc) (z : Z) (n : nat)
    (Hz : admin_level (run_ops ops []) l = Some z) :
  admin_level (run_ops (ops ++ replicate n (Op_promote (VRef l))) []) l
  = Some (z + Z.of_nat n).
Proof.
  unfold run_ops. rewrite foldl_app. fold (run_ops ops []).
  fold (run_ops (replicate n (Op_promote (VRef l))) (run_ops ops [])).
  apply run_ops_promote_n; [apply plain_run_ops, plain_nil | done].
Qed.

Lemma promote_n_times_witness :
  let ops := [Op_create_admin (VStr "A") (VStr "a@b.com") (Some (VInt (-2)))]
  in
  admin_level (run_ops ops []) 0%nat = Some (-2)
  ∧ admin_level
      (run_ops (ops ++ replicate 5 (Op_promote (VRef 0%nat))) []) 0%nat
    = Some (-2 + Z.of_nat 5).
Proof.
  intros ops. split; [reflexivity |].
  apply (promote_n_times ops 0%nat (-2) 5). reflexivity.
Defined.

Lemma greet_run_format (h : heap) (l : loc) (inst : instance) (v : value)
    (r : result string) :
  h !! l = Some inst → inst_dict inst !! "name" = Some v →
  py_format v h = (r, h) →
  User.greet (VRef l) h
  = (s ← r; Ok (VStr ("Hello, " +:+ s +:+ "!")), h).
Proof.
  intros Hl Hd Hf. unfold User.greet. unfold_M.
  rewrite (getattr_own _ _ _ _ _ Hl Hd), Hf. by destruct r.
Qed.

Lemma create_user_greeting (h : heap) (name email : value)
    (r : result string) :
  (∀ h', py_format name h' = (r, h')) →
  (u ← create_user name email; get_greeting u) h
  = (s ← r; Ok (VStr ("Hello, " +:+ s +:+ "!")),
     h ++ [Instance UserClass (user_dict name email)]).
Proof.
  intros Hf. unfold_M. rewrite create_user_run. unfold get_greeting.
  erewrite call_method_class;
    [| apply lookup_snoc | by apply user_dict_other | done].
  simpl. eapply greet_run_format;
    [apply lookup_snoc | apply user_dict_name | apply Hf].
Qed.

(** X15. Nothing requires the name to be text. The greeting of a [User]
    whose name is an integer shows the integer in decimal, unless the
    integer has more than 4300 decimal digits: then the conversion to text
    raises [ValueError], and so does the greeting. The greeting of one whose
    name is [None] or a [bool] shows [None], [True] or [False]. The limit
    lies between [10 ^ 4300 - 1] and [10 ^ 4300]. *)
Theorem greeting_of_non_text_name (h : heap) (email : value) (n : Z)
    (b : bool) :
  let greeting name := ((u ← create_user name email; get_greeting u) h).1 in
  greeting (VInt n)
  = (if (4300 <? int_digits n)%nat
     then Raise ValueError
     else Ok (VStr ("Hello, "
                    +:+ DecimalString.NilZero.string_of_int (Z.to_int n)
                    +:+ "!")))
  ∧ greeting VNone = Ok (VStr "Hello, None!")
  ∧ greeting (VBool b)
    = Ok (VStr (if b then "Hello, True!" else "Hello, False!"))
  ∧ int_digits (10 ^ 4300 - 1) = 4300%nat
  ∧ int_digits (- 10 ^ 4300) = 4301%nat.
Proof.
  intros greeting. subst greeting. simpl.
  rewrite (create_user_greeting h (VInt n) email _ (λ _, eq_refl)).
  rewrite (create_user_greeting h VNone email _ (λ _, eq_refl)).
  rewrite (create_user_greeting h (VBool b) email _ (λ _, eq_refl)).
  split; [| split; [done | split; [by destruct b |]]].
  - unfold int_str, int_max_str_digits. simpl.
    by destruct (4300 <? int_digits n)%nat.
  - split; vm_compute; reflexivity.
Qed.

(** ** service.py against models.py *)

(** X16. The service functions add nothing to the constructors:
    [create_user(name, email)] does what [User(name, email)] does, and
    [create_admin] does what [Admin] does, with the level given or omitted;
    the default level of the function and that of the constructor agree. *)
Theorem service_constructs_as_class (h : heap) (name email : value)
    (level : option value) :
  run_op (Op_create_user name email) h = run_op (Op_User name email) h
  ∧ run_op (Op_create_admin name email level) h
    = run_op (Op_Admin name email level) h
  ∧ run_op (Op_create_admin name email None) h
    = run_op (Op_Admin name email (Some (VInt 1))) h.
Proof.
  split; [| split].
  - simpl. by rewrite create_user_run, new_User_run.
  - simpl. by rewrite create_admin_run, new_Admin_run.
  - change (create_admin name email None h
            = new AdminClass (name :: email :: option_list (Some (VInt 1))) h).
    by rewrite create_admin_run, new_Admin_run.
Qed.

(** ** Failure modes *)

Section failures.
Implicit Types (h : heap) (l : loc) (inst : instance) (v : value) (o : op).

Lemma live_length h h' v : length h = length h' → live h v → live h' v.
Proof.
  intros Hlen. destruct v; simpl; try done;
    rewrite !lookup_lt_is_Some; lia.
Qed.

Lemma live_snoc h inst v : live h v → live (h ++ [inst]) v.
Proof.
  destruct v; simpl; try done;
    rewrite !lookup_lt_is_Some, length_app; lia.
Qed.

Lemma user_dict_lookup name email a v :
  user_dict name email !! a = Some v → v = name ∨ v = email.
Proof.
  unfold user_dict. intros Hd.
  apply lookup_insert_Some in Hd as [[_ <-] | [_ Hd]]; [by right |].
  apply lookup_insert_Some in Hd as [[_ <-] | [_ Hd]]; [by left | done].
Qed.

Lemma admin_dict_lookup name email level a v :
  admin_dict name email level !! a = Some v →
  v = name ∨ v = email ∨ v = level.
Proof.
  unfold admin_dict. intros Hd.
  apply lookup_insert_Some in Hd as [[_ <-] | [_ Hd]]; [by right; right |].
  apply user_dict_lookup in Hd as [-> | ->]; [by left | by right; left].
Qed.

Lemma closed_snoc h inst :
  closed h → (∀ a v, inst_dict inst !! a = Some v → live h v) →
  closed (h ++ [inst]).
Proof.
  intros Hc Hi l inst' a v Hl Hd. apply live_snoc.
  apply lookup_app_Some in Hl as [Hl | [_ Hl]]; [by eapply Hc |].
  apply list_lookup_singleton_Some in Hl as [_ <-]. by eapply Hi.
Qed.

Lemma closed_user h name email :
  closed h → live h name → live h email →
  closed (h ++ [Instance UserClass (user_dict name email)]).
Proof.
  intros Hc Hn He. apply closed_snoc; [done |]. simpl.
  by intros a v [-> | ->]%user_dict_lookup.
Qed.

Lemma closed_admin h name email level :
  closed h → live h name → live h email → live h level →
  closed (h ++ [Instance AdminClass (admin_dict name email level)]).
Proof.
  intros Hc Hn He Hv. apply closed_snoc; [done |]. simpl.
  by intros a v [-> | [-> | ->]]%admin_dict_lookup.
Qed.

Lemma live_default h (level : option value) :
  Forall (live h) (option_list level) → live h (default (VInt 1) level).
Proof. destruct level; [by intros [? _]%Forall_cons | done]. Qed.

Lemma closed_promote v h : closed h → closed (Admin.promote v h).2.
Proof.
  intros Hc. destruct (promote_effect v h) as [-> | Heff]; [done |].
  destruct Heff as (l & inst & lv & z & -> & Hl & _ & _ & ->).
  intros l' inst' a v Hl' Hd.
  apply (live_length h); [by rewrite length_insert |].
  apply list_lookup_insert_Some in Hl' as [(<- & <- & _) | [_ Hl']];
    [| by eapply Hc].
  simpl in Hd. apply lookup_insert_Some in Hd as [[_ <-] | [_ Hd]];
    [done | by eapply Hc].
Qed.

Lemma closed_run_op o h :
  plain h → closed h → live_op h o → closed (run_op o h).2.
Proof.
  intros Hp Hc Ho. unfold live_op in Ho. destruct o; simpl in Ho |- *.
  - apply Forall_cons in Ho as [Hn [He _]%Forall_cons].
    rewrite new_User_run. by apply closed_user.
  - apply Forall_cons in Ho as [Hn [He Hv]%Forall_cons].
    rewrite new_Admin_run. apply closed_admin; try done.
    by apply live_default.
  - by rewrite call_greet_heap.
  - destruct (call_promote_cases self h Hp) as [-> | Hcase]; [done |].
    destruct Hcase as (l & inst & _ & _ & _ & ->). by apply closed_promote.
  - apply Forall_cons in Ho as [Hn [He _]%Forall_cons].
    rewrite create_user_run. by apply closed_user.
  - apply Forall_cons in Ho as [Hn [He Hv]%Forall_cons].
    rewrite create_admin_run. apply closed_admin; try done.
    by apply live_default.
  - unfold get_greeting. by rewrite call_greet_heap.
  - done.
  - done.
Qed.

Lemma session_invariant h : session h → shaped h ∧ closed h.
Proof.
  induction 1 as [|h o _ [Hs Hc] Ho].
  - split; [apply shaped_nil | by intros l inst a v Hl].
  - split; [by apply shaped_run_op |].
    apply closed_run_op; [by apply shaped_plain | done ..].
Qed.

(** Formatting an object of the heap fails only on an integer of too many
    digits. *)
Lemma py_format_live h v :
  live h v →
  (∃ s, py_format v h = (Ok s, h))
  ∨ (∃ n, v = VInt n ∧ (int_max_str_digits < int_digits n)%nat
          ∧ py_format v h = (Raise ValueError, h)).
Proof.
  intros Hv. destruct v as [|b|n|s|l|f l]; simpl in *.
  - left. by eexists.
  - left. by eexists.
  - unfold int_str.
    destruct (Nat.ltb_spec int_max_str_digits (int_digits n)).
    + right. by exists n.
    + left. by eexists.
  - left. by eexists.
  - destruct Hv as [inst ->]. left. by eexists.
  - destruct Hv as [inst ->]. left. by eexists.
Qed.

Lemma int_str_long n :
  (int_max_str_digits < int_digits n)%nat → int_str n = Raise ValueError.
Proof.
  intros Hn. unfold int_str.
  by destruct (Nat.ltb_spec int_max_str_digits (int_digits n)); [| lia].
Qed.

(** In a shaped heap every instance exposes [greet], and the instances that
    expose [promote] are the [Admin]s. *)
Lemma shaped_exposes_greet h l inst :
  shaped h → h !! l = Some inst → exposes h (VRef l) "greet".
Proof.
  intros Hs Hl. exists l, inst. repeat split; [done |]. right.
  specialize (Hs l inst Hl). unfold shaped_instance in Hs.
  by destruct (inst_class inst).
Qed.

Lemma not_exposes_ref h l inst name :
  h !! l = Some inst → ¬ exposes h (VRef l) name →
  inst_dict inst !! name = None ∧ class_lookup (inst_class inst) name = None.
Proof.
  intros Hl Hne.
  destruct (inst_dict inst !! name) as [v|] eqn:Hd.
  { destruct Hne. exists l, inst. repeat split; [done |]. left.
    rewrite Hd. by eexists. }
  destruct (class_lookup (inst_class inst) name) as [a|] eqn:Hc; [| done].
  destruct Hne. exists l, inst. repeat split; [done |]. right.
  rewrite Hc. by eexists.
Qed.

Lemma shaped_name h l inst :
  shaped h → h !! l = Some inst →
  inst_class inst ≠ ObjectClass
  ∧ ∃ nm, inst_dict inst !! "name" = Some nm.
Proof.
  intros Hs Hl. specialize (Hs l inst Hl). unfold shaped_instance in Hs.
  destruct (inst_class inst); [done | ..].
  - destruct Hs as (name & email & ->). split; [done |].
    exists name. apply user_dict_name.
  - destruct Hs as (name & email & level & ->). split; [done |].
    exists name. apply admin_dict_name.
Qed.

Lemma shaped_level h l inst :
  shaped h → h !! l = Some inst → inst_class inst = AdminClass →
  ∃ lv, inst_dict inst !! "level" = Some lv.
Proof.
  intros Hs Hl Hc. specialize (Hs l inst Hl). unfold shaped_instance in Hs.
  rewrite Hc in Hs. destruct Hs as (name & email & level & ->).
  exists level. apply admin_dict_level.
Qed.

(** What a call of [greet] does in a state of a session. *)
Lemma call_greet_outcome h obj :
  shaped h → closed h → live h obj →
  (∃ v, (call_method obj "greet" [] h).1 = Ok v
        ∧ exposes h obj "greet"
        ∧ ∀ l inst n, obj = VRef l → h !! l = Some inst →
            inst_dict inst !! "name" = Some (VInt n) →
            (int_digits n ≤ int_max_str_digits)%nat)
  ∨ ((call_method obj "greet" [] h).1 = Raise (AttributeError "greet")
     ∧ ¬ exposes h obj "greet")
  ∨ ((call_method obj "greet" [] h).1 = Raise ValueError
     ∧ exposes h obj "greet"
     ∧ ∃ l inst n, obj = VRef l ∧ h !! l = Some inst
         ∧ inst_dict inst !! "name" = Some (VInt n)
         ∧ (int_max_str_digits < int_digits n)%nat).
Proof.
  intros Hs Hc Hlive. pose proof (shaped_plain h Hs) as Hp.
  destruct obj as [| | | |l|];
    try (right; left; split; [done | by intros (? & ? & ? & _)]).
  destruct Hlive as [inst Hl].
  destruct (Hp l inst Hl) as [Hg _].
  destruct (shaped_name h l inst Hs Hl) as [Hclass [nm Hnm]].
  pose proof (shaped_exposes_greet h l inst Hs Hl) as Hex.
  rewrite (call_method_class _ _ _ _ User_greet _ Hl Hg)
    by by destruct (inst_class inst).
  simpl.
  destruct (py_format_live h nm (Hc l inst "name" nm Hl Hnm))
    as [[s Hf] | (n & -> & Hlong & Hf)].
  - left. rewrite (greet_run_format _ _ _ _ _ Hl Hnm Hf). simpl.
    eexists. split; [done |]. split; [done |].
    intros l' inst' n' [= <-] Hl' Hn'. rewrite Hl in Hl'.
    injection Hl' as <-. rewrite Hnm in Hn'. injection Hn' as ->.
    simpl in Hf. unfold int_str in Hf.
    by destruct (Nat.ltb_spec int_max_str_digits (int_digits n')).
  - right. right. rewrite (greet_run_format _ _ _ _ _ Hl Hnm Hf).
    split; [done |]. split; [done |]. by exists l, inst, n.
Qed.

(** What a call of [promote] does in a state of a session. *)
Lemma call_promote_outcome h obj :
  shaped h → live h obj →
  (∃ v, (call_method obj "promote" [] h).1 = Ok v
        ∧ exposes h obj "promote"
        ∧ ∀ l inst lv, obj = VRef l → h !! l = Some inst →
            inst_dict inst !! "level" = Some lv → is_Some (as_int lv))
  ∨ ((call_method obj "promote" [] h).1 = Raise (AttributeError "promote")
     ∧ ¬ exposes h obj "promote")
  ∨ ((call_method obj "promote" [] h).1 = Raise TypeError
     ∧ exposes h obj "promote"
     ∧ ∃ l inst lv, obj = VRef l ∧ h !! l = Some inst
         ∧ inst_class inst = AdminClass
         ∧ inst_dict inst !! "level" = Some lv ∧ as_int lv = None).
Proof.
  intros Hs Hlive. pose proof (shaped_plain h Hs) as Hp.
  destruct obj as [| | | |l|];
    try (right; left; split; [done | by intros (? & ? & ? & _)]).
  destruct Hlive as [inst Hl].
  destruct (Hp l inst Hl) as [_ Hm].
  destruct (shaped_name h l inst Hs Hl) as [Hclass _].
  destruct (inst_class inst) eqn:Hc; [done | |].
  - right. left.
    rewrite (call_method_missing _ _ _ _ _ Hl Hm) by by rewrite Hc.
    split; [done |].
    intros (l' & inst' & [= <-] & Hl' & Hex). rewrite Hl in Hl'.
    injection Hl' as <-. rewrite Hm, Hc in Hex.
    by destruct Hex as [[] | []].
  - assert (exposes h (VRef l) "promote") as Hex.
    { exists l, inst. repeat split; [done |]. right. by rewrite Hc. }
    destruct (shaped_level h l inst Hs Hl Hc) as [lv Hlv].
    rewrite (call_promote_any _ _ _ lv Hl Hc Hm Hlv).
    destruct (as_int lv) as [z|] eqn:Hz.
    + left. eexists. split; [done |]. split; [done |].
      intros l' inst' lv' [= <-] Hl' Hlv'. rewrite Hl in Hl'.
      injection Hl' as <-. rewrite Hlv in Hlv'. injection Hlv' as <-.
      by rewrite Hz.
    + right. right. split; [done |]. split; [done |].
      by exists l, inst, lv.
Qed.

Lemma truncate_name_outcome (name : value) (max_length : option value) :
  let typed := is_str name ∧ from_option is_index True max_length in
  typed ∧ (∃ r, truncate_name name max_length = Ok (VStr r))
  ∨ ¬ typed ∧ truncate_name name max_length = Raise TypeError.
Proof.
  intros typed. subst typed.
  destruct (is_str_cases name) as [[s ->] | Hs].
  - destruct max_length as [v|]; simpl.
    + destruct (as_int v) as [k|] eqn:Hv.
      * left. split; [split; [by eexists | by eexists] |].
        rewrite (truncate_name_index _ _ _ Hv), truncate_name_slice.
        by eexists.
      * right. split; [by intros [_ [k Hk]]; congruence |].
        by destruct v.
    + left. split; [split; [by eexists | done] |].
      rewrite truncate_name_default, truncate_name_slice. by eexists.
  - right. split; [by intros [Hn _] |].
    destruct name as [| | |s| |]; try done. destruct Hs. by exists s.
Qed.

(** Reading [fails] backwards. *)
Lemma fails_greet_inv h o obj e :
  greet_call o = Some obj → fails h o e →
  (¬ exposes h obj "greet" ∧ e = AttributeError "greet")
  ∨ (∃ l inst n, obj = VRef l ∧ h !! l = Some inst
       ∧ inst_dict inst !! "name" = Some (VInt n)
       ∧ (int_max_str_digits < int_digits n)%nat ∧ e = ValueError).
Proof.
  intros Hg Hf. destruct Hf as [o obj' Hg' Hn | o l inst n Hg' | | | |];
    simpl in Hg; try done.
  - left. rewrite Hg in Hg'. by injection Hg' as <-.
  - right. rewrite Hg in Hg'. injection Hg' as ->. by exists l, inst, n.
Qed.

Lemma fails_promote_inv h obj e :
  fails h (Op_promote obj) e →
  (¬ exposes h obj "promote" ∧ e = AttributeError "promote")
  ∨ (∃ l inst lv, obj = VRef l ∧ h !! l = Some inst
       ∧ inst_class inst = AdminClass
       ∧ inst_dict inst !! "level" = Some lv ∧ as_int lv = None
       ∧ e = TypeError).
Proof.
  inversion 1 as [? ? Hg | ? ? ? ? Hg | | l inst lv | |]; subst;
    try done.
  - by left.
  - right. by exists l, inst, lv.
Qed.

Lemma fails_creates_inv h o e : creates o = true → ¬ fails h o e.
Proof. intros Hc Hf. by destruct Hf as [[] | [] | | | |]. Qed.

Lemma fails_email_inv h email e :
  fails h (Op_validate_email email) e → ¬ is_str email ∧ e = TypeError.
Proof. by inversion 1. Qed.

Lemma fails_truncate_inv h name max_length e :
  fails h (Op_truncate_name name max_length) e →
  ¬ (is_str name ∧ from_option is_index True max_length) ∧ e = TypeError.
Proof. by inversion 1. Qed.

(** The outcome of [greet] and of [promote] against [fails]. *)
Lemma greet_fails_iff h o obj e :
  shaped h → closed h → live h obj → greet_call o = Some obj →
  (call_method obj "greet" [] h).1 = Raise e ↔ fails h o e.
Proof.
  intros Hs Hc Hlive Hg.
  destruct (call_greet_outcome h obj Hs Hc Hlive)
    as [(v & -> & Hex & Hshort) | [[-> Hnex] | (-> & Hex & Hlong)]].
  - split; [done |]. intros Hf.
    destruct (fails_greet_inv h o obj e Hg Hf)
      as [[Hn _] | (l & inst & n & -> & Hl & Hn & Hlong & _)]; [done |].
    specialize (Hshort l inst n eq_refl Hl Hn). lia.
  - split; [intros [= <-]; by eapply fails_no_greet |]. intros Hf.
    destruct (fails_greet_inv h o obj e Hg Hf)
      as [[_ ->] | (l & inst & n & -> & Hl & _)]; [done |].
    destruct Hnex. by eapply shaped_exposes_greet.
  - destruct Hlong as (l & inst & n & -> & Hl & Hn & Hlong).
    split; [intros [= <-]; by eapply fails_long_name |]. intros Hf.
    by destruct (fails_greet_inv h o _ e Hg Hf)
      as [[Hne _] | (? & ? & ? & _ & _ & _ & _ & ->)].
Qed.

Lemma promote_fails_iff h obj e :
  shaped h → live h obj →
  (call_method obj "promote" [] h).1 = Raise e ↔ fails h (Op_promote obj) e.
Proof.
  intros Hs Hlive.
  destruct (call_promote_outcome h obj Hs Hlive)
    as [(v & -> & Hex & Hnum) | [[-> Hnex] | (-> & Hex & Hlv)]].
  - split; [done |]. intros Hf.
    destruct (fails_promote_inv h obj e Hf)
      as [[Hn _] | (l & inst & lv & -> & Hl & _ & Hlv & Hz & _)]; [done |].
    destruct (Hnum l inst lv eq_refl Hl Hlv) as [z Hz']. congruence.
  - split; [intros [= <-]; by apply fails_no_promote |]. intros Hf.
    destruct (fails_promote_inv h obj e Hf)
      as [[_ ->] | (l & inst & lv & -> & Hl & Hc & _)]; [done |].
    destruct Hnex. exists l, inst. repeat split; [done |].
    right. by rewrite Hc.
  - destruct Hlv as (l & inst & lv & -> & Hl & Hc & Hlv & Hz).
    split; [intros [= <-]; by eapply fails_level |]. intros Hf.
    by destruct (fails_promote_inv h _ e Hf)
      as [[Hne _] | (? & ? & ? & _ & _ & _ & _ & _ & ->)].
Qed.

End failures.

(** C8, as stated, fails: operations other than [get_greeting] raise.
    [truncate_name("abc", None)] raises [TypeError], and so does [promote()]
    on an [Admin] created with the level ["high"]. *)
Lemma other_operations_raise :
  let h := run_ops [Op_create_admin (VStr "A") (VStr "a@b.com")
                      (Some (VStr "high"))] [] in
  (run_op (Op_truncate_name (VStr "abc") (Some VNone)) []).1 = Raise TypeError
  ∧ (run_op (Op_promote (VRef 0%nat)) h).1 = Raise TypeError
  ∧ ¬ single_failure_mode [] (Op_truncate_name (VStr "abc") (Some VNone))
  ∧ ¬ single_failure_mode h (Op_promote (VRef 0%nat)).
Proof.
  intros h. split; [reflexivity |]. split; [reflexivity |].
  split; intros Hsingle.
  - destruct (proj1 (Hsingle TypeError) eq_refl) as (user & Ho & _). done.
  - destruct (proj1 (Hsingle TypeError) eq_refl) as (user & Ho & _). done.
Qed.

(** C8, amended. In every state of a session, an operation on objects of
    that state raises exactly in the ways that [fails] lists, and what it
    raises is what [fails] says: [get_greeting] on an object without [greet]
    raises the [AttributeError] for [greet], and it is not the only failure.
    The constructors, [create_user] and [create_admin] never raise, and
    [validate_email] returns a boolean on every string. *)
Theorem failure_modes (h : heap) (o : op)
    (Hsession : session h) (Hlive : live_op h o) :
  (∀ e, (run_op o h).1 = Raise e ↔ fails h o e)
  ∧ (creates o = true → ∃ v, (run_op o h).1 = Ok v)
  ∧ ∀ email : string, ∃ b, validate_email (VStr email) = Ok (VBool b).
Proof.
  destruct (session_invariant h Hsession) as [Hshaped Hclosed].
  unfold live_op in Hlive.
  split; [| split].
  - intros e. destruct o; simpl in Hlive |- *.
    + rewrite new_User_run. split; [done | by intros ?%fails_creates_inv].
    + rewrite new_Admin_run. split; [done | by intros ?%fails_creates_inv].
    + apply Forall_cons in Hlive as [Hself _]. by apply greet_fails_iff.
    + apply Forall_cons in Hlive as [Hself _]. by apply promote_fails_iff.
    + rewrite create_user_run.
      split; [done | by intros ?%fails_creates_inv].
    + rewrite create_admin_run.
      split; [done | by intros ?%fails_creates_inv].
    + apply Forall_cons in Hlive as [Hself _]. unfold get_greeting.
      by apply greet_fails_iff.
    + unfold lift. simpl.
      destruct (is_str_cases email) as [[s ->] | Hs].
      * rewrite validate_email_str. split; [done |].
        intros [Hn _]%fails_email_inv. destruct Hn. by exists s.
      * rewrite (validate_email_not_str email Hs). split.
        -- intros [= <-]. by apply fails_email.
        -- by intros [_ ->]%fails_email_inv.
    + unfold lift. simpl.
      destruct (truncate_name_outcome name max_length)
        as [[Ht [r ->]] | [Ht ->]].
      * split; [done |]. by intros [Hn _]%fails_truncate_inv.
      * split.
        -- intros [= <-]. by apply fails_truncate.
        -- by intros [_ ->]%fails_truncate_inv.
  - destruct o; try done; intros _; simpl.
    + rewrite new_User_run. by eexists.
    + rewrite new_Admin_run. by eexists.
    + rewrite create_user_run. by eexists.
    + rewrite create_admin_run. by eexists.
  - intros email. rewrite validate_email_str. by eexists.
Qed.

Lemma failure_modes_witness :
  let h := run_ops [Op_create_user (VStr "U") (VInt 7);
                    Op_create_admin (VStr "A") (VStr "a@b.com")
                      (Some (VStr "high"))] [] in
  let o := Op_promote (VRef 1%nat) in
  session h ∧ live_op h o
  ∧ (run_op o h).1 = Raise TypeError
  ∧ (run_op (Op_promote (VRef 0%nat)) h).1
    = Raise (AttributeError "promote")
  ∧ (run_op (Op_get_greeting (VRef 0%nat)) h).1 = Ok (VStr "Hello, U!")
  ∧ ∀ e, (run_op o h).1 = Raise e ↔ fails h o e.
Proof.
  intros h o.
  assert (session h) as Hs.
  { apply (session_step _ (Op_create_admin _ _ _)).
    - apply (session_step _ (Op_create_user _ _)); [apply session_start |].
      by repeat constructor.
    - by repeat constructor. }
  assert (live_op h o) as Ho.
  { apply Forall_cons. split; [| done]. simpl. by eexists. }
  split; [exact Hs |]. split; [exact Ho |].
  split; [reflexivity |]. split; [reflexivity |]. split; [reflexivity |].
  apply (failure_modes h o Hs Ho).
Defined.
